(** * zvdata.factor: the factor computation pipeline

    A shallow embedding of [src/zvdata/factor.py]: the [Factor] object with
    its four frames, the three compute phases, the gap filler, the warm
    start of the factor frame and the constructors' argument passing,
    followed by the properties of the pipeline. *)

From Stdlib Require Import List ZArith String Bool Arith Lia.
From Stdlib Require Import OrdersEx Sorted RelationClasses.
Import ListNotations.

Local Open Scope string_scope.
Local Open Scope list_scope.
Local Open Scope Z_scope.

(** ** Frames *)

(** A [pd.Timestamp], counted in seconds. *)
Definition Timestamp := Z.

(** [freq='D'], the default step of [pd.date_range]. *)
Definition DAY : Z := 86400.

(** A label of the two-level index [(entity_id, timestamp)]. *)
Definition Key := (string * Timestamp)%type.

Definition key_eqb (a b : Key) : bool :=
  String.eqb (fst a) (fst b) && Z.eqb (snd a) (snd b).

Inductive Scalar :=
| Num (z : Z)
| Txt (s : string).

(** A cell of a column; [None] is NaN. *)
Definition Cell := option Scalar.

(** A [pd.DataFrame] under a two-level index, stored by column as pandas
    does: the labels of the rows, and per column its name and its cells. *)
Record DataFrame := mkDataFrame {
  index : list Key;
  columns : list (string * list Cell)
}.

(** A Python reference to a frame, which may be [None]. *)
Definition Frame := option DataFrame.

(** [df.empty]: some axis has length zero. *)
Definition empty (df : DataFrame) : bool :=
  match index df, columns df with
  | [], _ => true
  | _, [] => true
  | _, _ => false
  end.

(** Modelled from the spec: [df_is_not_null] of [zvdata.utils.pd_utils] is
    not part of the source file; the spec speaks of a frame that is
    "empty or absent". *)
Definition df_is_not_null (df : Frame) : bool :=
  match df with
  | None => false
  | Some d => negb (empty d)
  end.

(** ** Exceptions and the state monad of a method call *)

Inductive exn :=
| AttributeError
| ValueError
| TypeError
| CollaboratorError (what : string).

Inductive Result (A : Type) :=
| Ok (a : A)
| Raise (e : exn).

Arguments Ok {A} a.
Arguments Raise {A} e.

(** ** pandas operations used by the gap filler *)

(** [pd.date_range(start, end)]: one stamp per day from [start], none
    after [end]. *)
Definition date_range (a b : Timestamp) : list Timestamp :=
  if a <=? b
  then map (fun k => a + Z.of_nat k * DAY) (seq 0 (S (Z.to_nat ((b - a) / DAY))))
  else [].

Fixpoint insert_level (e : string) (l : list string) : list string :=
  match l with
  | [] => [e]
  | x :: r =>
      match String_as_OT.compare e x with
      | Lt => e :: l
      | Eq => l
      | Gt => x :: insert_level e r
      end
  end.

(** [index.levels[0]]: the entity ids of the index, sorted, each once. *)
Definition levels0 (idx : list Key) : list string :=
  fold_right (fun k acc => insert_level (fst k) acc) [] idx.

(** [pd.MultiIndex.from_product([l, idx])]. *)
Definition from_product (l : list string) (idx : list Timestamp) : list Key :=
  list_prod l idx.

Definition mem_key (k : Key) (l : list Key) : bool := existsb (key_eqb k) l.

(** [index.duplicated(keep='first')], given the labels already [seen]. *)
Fixpoint duplicated_from (seen : list Key) (idx : list Key) : list bool :=
  match idx with
  | [] => []
  | k :: r => mem_key k seen :: duplicated_from (k :: seen) r
  end.

Definition duplicated (idx : list Key) : list bool := duplicated_from [] idx.

(** Boolean row selection [x.loc[mask]] on one axis. *)
Fixpoint select {A : Type} (mask : list bool) (l : list A) : list A :=
  match mask, l with
  | b :: m, x :: r => if b then x :: select m r else select m r
  | _, _ => []
  end.

Definition loc (mask : list bool) (df : DataFrame) : DataFrame :=
  {| index := select mask (index df);
     columns := map (fun c => (fst c, select mask (snd c))) (columns df) |}.

(** The cell of a column at the first row labelled [k]; NaN when no row
    carries the label. *)
Fixpoint first_value (idx : list Key) (col : list Cell) (k : Key) : Cell :=
  match idx, col with
  | k0 :: r, c :: cr => if key_eqb k k0 then c else first_value r cr k
  | _, _ => None
  end.

Fixpoint unique (idx : list Key) : bool :=
  match idx with
  | [] => true
  | k :: r => negb (mem_key k r) && unique r
  end.

(** [df.reindex(new_index)]: refused on an index with repeated labels. *)
Definition reindex (new_index : list Key) (df : DataFrame) : Result DataFrame :=
  if unique (index df)
  then Ok {| index := new_index;
             columns := map (fun c => (fst c, map (first_value (index df) (snd c)) new_index))
                            (columns df) |}
  else Raise ValueError.

Inductive FillMethod := pad | backfill.

(** The method names [fillna] accepts. *)
Definition clean_fill_method (m : string) : option FillMethod :=
  if String.eqb m "ffill" then Some pad
  else if String.eqb m "pad" then Some pad
  else if String.eqb m "bfill" then Some backfill
  else if String.eqb m "backfill" then Some backfill
  else None.

(** Forward fill of one column: [last] is the last valid cell met and
    [cnt] the number of missing cells met since. *)
Fixpoint pad_from (limit : nat) (last : Cell) (cnt : nat) (xs : list Cell) : list Cell :=
  match xs with
  | [] => []
  | Some v :: r => Some v :: pad_from limit (Some v) 0 r
  | None :: r =>
      (if (cnt <? limit)%nat then last else None) :: pad_from limit last (S cnt) r
  end.

Definition fill_column (m : FillMethod) (limit : nat) (xs : list Cell) : list Cell :=
  match m with
  | pad => pad_from limit None 0 xs
  | backfill => rev (pad_from limit None 0 (rev xs))
  end.

(** [df.fillna(method=m, limit=n)]: an unknown method or a limit below one
    is refused. *)
Definition fillna (method : string) (limit : Z) (df : DataFrame) : Result DataFrame :=
  match clean_fill_method method with
  | None => Raise ValueError
  | Some m =>
      if limit <? 1 then Raise ValueError
      else Ok {| index := index df;
                 columns := map (fun c => (fst c, fill_column m (Z.to_nat limit) (snd c)))
                                (columns df) |}
  end.

(** ** The Factor object *)

Definition Transformer := Frame -> Result Frame.
Definition Accumulator := Frame -> Frame -> Result Frame.
Definition Scorer := Frame -> Result Frame.

Inductive FactorClass :=
| CFactor
| CFilterFactor
| CScoreFactor
| CStateFactor.

Inductive FactorType :=
| filter_type
| score_type
| state_type.

Definition factor_type (c : FactorClass) : option FactorType :=
  match c with
  | CFactor => None
  | CFilterFactor => Some filter_type
  | CScoreFactor => Some score_type
  | CStateFactor => Some state_type
  end.

(** The attributes of a factor the pipeline reads and writes, together
    with [df_to_db_calls], the frames handed to the persistence sink so
    far (the sink lives outside the object; it is carried here so that
    one state is threaded through a method call). *)
Record Factor := mkFactor {
  cls : FactorClass;
  start_timestamp : option Timestamp;
  end_timestamp : option Timestamp;
  valid_window : Z;
  keep_all_timestamp : bool;
  fill_method : string;
  effective_number : Z;
  transformers : list Transformer;
  accumulator : option Accumulator;
  need_persist : bool;
  dry_run : bool;
  scorer : option Scorer;
  states : list string;
  data_df : Frame;
  factor_df : Frame;
  pipe_df : Frame;
  result_df : Frame;
  df_to_db_calls : list Frame
}.

Definition set_pipe_df (s : Factor) (df : Frame) : Factor :=
  mkFactor (cls s) (start_timestamp s) (end_timestamp s) (valid_window s)
    (keep_all_timestamp s) (fill_method s) (effective_number s) (transformers s)
    (accumulator s) (need_persist s) (dry_run s) (scorer s) (states s)
    (data_df s) (factor_df s) df (result_df s) (df_to_db_calls s).

Definition set_factor_df (s : Factor) (df : Frame) : Factor :=
  mkFactor (cls s) (start_timestamp s) (end_timestamp s) (valid_window s)
    (keep_all_timestamp s) (fill_method s) (effective_number s) (transformers s)
    (accumulator s) (need_persist s) (dry_run s) (scorer s) (states s)
    (data_df s) df (pipe_df s) (result_df s) (df_to_db_calls s).

Definition set_result_df (s : Factor) (df : Frame) : Factor :=
  mkFactor (cls s) (start_timestamp s) (end_timestamp s) (valid_window s)
    (keep_all_timestamp s) (fill_method s) (effective_number s) (transformers s)
    (accumulator s) (need_persist s) (dry_run s) (scorer s) (states s)
    (data_df s) (factor_df s) (pipe_df s) df (df_to_db_calls s).

Definition log_df_to_db (s : Factor) (df : Frame) : Factor :=
  mkFactor (cls s) (start_timestamp s) (end_timestamp s) (valid_window s)
    (keep_all_timestamp s) (fill_method s) (effective_number s) (transformers s)
    (accumulator s) (need_persist s) (dry_run s) (scorer s) (states s)
    (data_df s) (factor_df s) (pipe_df s) (result_df s) (df_to_db_calls s ++ [df]).

(** A method body: it runs on the object and either returns or raises,
    leaving the object as it was at that point. *)
Definition M (A : Type) := Factor -> Result A * Factor.

Definition ret {A : Type} (a : A) : M A := fun s => (Ok a, s).

Definition raise {A : Type} (e : exn) : M A := fun s => (Raise e, s).

Definition bind {A B : Type} (m : M A) (f : A -> M B) : M B :=
  fun s =>
    match m s with
    | (Ok a, s') => f a s'
    | (Raise e, s') => (Raise e, s')
    end.

Notation "m ;; k" := (bind m (fun _ => k))
  (at level 61, right associativity).

(** Lifting the outcome of a collaborator call: its value is passed to
    the assignment [k], an exception leaves the object untouched. *)
Definition assign (r : Result Frame) (k : Factor -> Frame -> Factor) : M unit :=
  fun s =>
    match r with
    | Ok df => (Ok tt, k s df)
    | Raise e => (Raise e, s)
    end.

Definition is_some {A : Type} (o : option A) : bool :=
  match o with Some _ => true | None => false end.

Definition nonempty {A : Type} (l : list A) : bool :=
  match l with [] => false | _ => true end.

Section Pipeline.

(** What the persistence sink answers to a frame: [None] when the write
    succeeds, the exception it raises otherwise. *)
Variable df_to_db_raises : Frame -> option exn.

Definition pre_compute : M unit :=
  fun s => (Ok tt, set_pipe_df s (data_df s)).

(** The loop [for transformer in self.transformers]. *)
Fixpoint for_transformers (ts : list Transformer) : M unit :=
  match ts with
  | [] => ret tt
  | t :: r => fun s => (assign (t (pipe_df s)) set_pipe_df ;; for_transformers r) s
  end.

(** The stateless stage of [do_compute]. *)
Definition transform_stage : M unit :=
  fun s =>
    if df_is_not_null (pipe_df s) && nonempty (transformers s)
    then for_transformers (transformers s) s
    else (Ok tt, s).

(** The stateful stage of [do_compute]. *)
Definition accumulate_stage : M unit :=
  fun s =>
    match df_is_not_null (pipe_df s), accumulator s with
    | true, Some acc => assign (acc (pipe_df s) (factor_df s)) set_factor_df s
    | _, _ => (Ok tt, set_factor_df s (pipe_df s))
    end.

Definition Factor_do_compute : M unit :=
  transform_stage ;; accumulate_stage.

Definition ScoreFactor_do_compute : M unit :=
  Factor_do_compute ;;
  fun s =>
    match df_is_not_null (pipe_df s), scorer s with
    | true, Some sc => assign (sc (data_df s)) set_result_df s
    | _, _ => (Ok tt, s)
    end.

(** Method resolution of [self.do_compute()]. *)
Definition do_compute : M unit :=
  fun s =>
    match cls s with
    | CScoreFactor => ScoreFactor_do_compute s
    | _ => Factor_do_compute s
    end.

Definition fill_gap : M unit :=
  fun s =>
    if keep_all_timestamp s then
      match start_timestamp s, end_timestamp s with
      | Some a, Some b =>
          let idx := date_range a b in
          match result_df s with
          | None => (Raise AttributeError, s)
          | Some df =>
              let new_index := from_product (levels0 (index df)) idx in
              let df1 := loc (map negb (duplicated (index df))) df in
              let s1 := set_result_df s (Some df1) in
              match reindex new_index df1 with
              | Raise e => (Raise e, s1)
              | Ok df2 =>
                  let s2 := set_result_df s1 (Some df2) in
                  match fillna (fill_method s) (effective_number s) df2 with
                  | Raise e => (Raise e, s2)
                  | Ok df3 => (Ok tt, set_result_df s2 (Some df3))
                  end
              end
          end
      | _, _ => (Raise ValueError, s)
      end
    else (Ok tt, s).

(** Modelled from the spec: [df_to_db] of [zvdata.api] is not part of
    the source file; the sink is a write that may fail, and a failure
    surfaces to the caller of [compute]. Every call is recorded. *)
Definition persist_result : M unit :=
  fun s =>
    let s' := log_df_to_db s (factor_df s) in
    match df_to_db_raises (factor_df s) with
    | Some e => (Raise e, s')
    | None => (Ok tt, s')
    end.

Definition after_compute : M unit :=
  fill_gap ;;
  fun s => if need_persist s then persist_result s else (Ok tt, s).

Definition compute : M unit :=
  pre_compute ;; do_compute ;; after_compute.

(** [on_data_loaded] and [on_data_changed] re-enter the pipeline. *)
Definition on_data_loaded (data : Frame) : M unit := compute.

Definition on_data_changed (data : Frame) : M unit := compute.

End Pipeline.

(** The transformer chain as a function of the frame alone. *)
Definition and_then (r : Result Frame) (t : Transformer) : Result Frame :=
  match r with
  | Ok df => t df
  | Raise e => Raise e
  end.

Definition chain (ts : list Transformer) (df : Frame) : Result Frame :=
  fold_left and_then ts (Ok df).

(** The frame the longest successful prefix of the chain produces. *)
Fixpoint last_good (ts : list Transformer) (df : Frame) : Frame :=
  match ts with
  | [] => df
  | t :: r =>
      match t df with
      | Ok d => last_good r d
      | Raise _ => df
      end
  end.

(** ** StateFactor *)

(** The class attribute [states = []]. *)
Definition StateFactor_states : list string := [].

(** The three hooks have the body [pass]: they return [None]. *)
Definition get_state (s : Factor) (timestamp : Timestamp) (entity_id : string)
  : option string := None.

Definition get_short_state (s : Factor) : option string := None.

Definition get_long_state (s : Factor) : option string := None.

(** A result frame that carries, for the label [k], one of the [declared]
    states in some column. *)
Definition state_at (declared : list string) (df : DataFrame) (k : Key) : Prop :=
  exists c st, In c (columns df) /\ In st declared /\
               first_value (index df) (snd c) k = Some (Txt st).

(** The result frame holds a declared state for every label of the
    working frame. *)
Definition populated_with_states (s : Factor) : Prop :=
  exists df, result_df s = Some df /\
    forall p k, pipe_df s = Some p -> In k (index p) -> state_at (states s) df k.

(** ** Warm start of the factor frame *)

Fixpoint count_entity (e : string) (idx : list Key) : nat :=
  match idx with
  | [] => 0
  | k :: r => if String.eqb (fst k) e then S (count_entity e r) else count_entity e r
  end.

(** A row is among the trailing [w] of its entity when fewer than [w]
    rows of that entity follow it. *)
Fixpoint trailing_mask (w : nat) (idx : list Key) : list bool :=
  match idx with
  | [] => []
  | k :: r => (count_entity (fst k) r <? w)%nat :: trailing_mask w r
  end.

(** Modelled from the spec: [load_window_df] of [zvdata.reader] is not
    part of the source file; it loads "only the trailing ValidWindow rows
    per entity from the persisted FactorFrame". *)
Definition load_window_df (persisted : DataFrame) (window : Z) : Frame :=
  Some (loc (trailing_mask (Z.to_nat window) (index persisted)) persisted).

Definition from_start (start : option Timestamp) (k : Key) : bool :=
  match start with
  | None => true
  | Some a => a <=? snd k
  end.

(** Modelled from the spec: [get_data] of [zvdata.api] is not part of the
    source file; it loads "the entire persisted FactorFrame from the
    configured start timestamp onward". *)
Definition get_data (persisted : DataFrame) (start : option Timestamp) : Frame :=
  Some (loc (map (from_start start) (index persisted)) persisted).

(** The frames of a factor as [Factor.__init__] leaves them before it
    loads the raw data; [persisted] is the stored factor table. *)
Definition Factor_init (c : FactorClass)
    (start_ts end_ts : option Timestamp) (window : Z)
    (keep_all : bool) (method : string) (eff : Z)
    (ts : list Transformer) (acc : option Accumulator)
    (persist dry : bool) (persisted : DataFrame) : Factor :=
  let self := mkFactor c start_ts end_ts window keep_all method eff ts acc
                persist dry None StateFactor_states None None None None [] in
  if need_persist self then
    if dry_run self
    then set_factor_df self (load_window_df persisted (valid_window self))
    else set_factor_df self (get_data persisted (start_timestamp self))
  else self.

(** The last [n] elements of a list. *)
Definition lastn {A : Type} (n : nat) (l : list A) : list A :=
  skipn (List.length l - n) l.

Definition of_entity (e : string) (idx : list Key) : list Key :=
  filter (fun k => String.eqb (fst k) e) idx.

(** ** Argument passing of the constructors *)

#[local] Set Warnings "-register-all".

Inductive PyVal :=
| PyNone
| PyBool (b : bool)
| PyInt (z : Z)
| PyStr (s : string)
| PyList (l : list PyVal)
| PyObj (name : string).

(** A signature: the parameters in order, each with its default. *)
Definition Signature := list (string * option PyVal).

(** Binding of a positional call to a signature. *)
Fixpoint bind_positional (sig : Signature) (args : list PyVal)
  : Result (list (string * PyVal)) :=
  match sig, args with
  | [], [] => Ok []
  | [], _ :: _ => Raise TypeError
  | (n, _) :: ps, a :: r =>
      match bind_positional ps r with
      | Ok env => Ok ((n, a) :: env)
      | Raise e => Raise e
      end
  | (n, Some d) :: ps, [] =>
      match bind_positional ps [] with
      | Ok env => Ok ((n, d) :: env)
      | Raise e => Raise e
      end
  | (n, None) :: ps, [] => Raise TypeError
  end.

Fixpoint lookup (n : string) (env : list (string * PyVal)) : option PyVal :=
  match env with
  | [] => None
  | (m, v) :: r => if String.eqb n m then Some v else lookup n r
  end.

(** The parameters the two constructors share, up to [auto_load]. *)
Definition reader_params : Signature :=
  [ ("data_schema", None);
    ("entity_ids", Some PyNone);
    ("entity_type", Some (PyStr "stock"));
    ("exchanges", Some (PyList [PyStr "sh"; PyStr "sz"]));
    ("codes", Some PyNone);
    ("the_timestamp", Some PyNone);
    ("start_timestamp", Some PyNone);
    ("end_timestamp", Some PyNone);
    ("columns", Some PyNone);
    ("filters", Some PyNone);
    ("order", Some PyNone);
    ("limit", Some PyNone);
    ("provider", Some (PyStr "eastmoney"));
    ("level", Some (PyObj "IntervalLevel.LEVEL_1DAY"));
    ("category_field", Some (PyStr "entity_id"));
    ("time_field", Some (PyStr "timestamp"));
    ("auto_load", Some (PyBool true)) ].

(** The signature of [Factor.__init__]. *)
Definition Factor_params : Signature :=
  (reader_params ++
  [ ("valid_window", Some (PyInt 250));
    ("keep_all_timestamp", Some (PyBool false));
    ("fill_method", Some (PyStr "ffill"));
    ("effective_number", Some (PyInt 10));
    ("transformers", Some (PyList []));
    ("accumulator", Some PyNone);
    ("need_persist", Some (PyBool true));
    ("dry_run", Some (PyBool false)) ])%list.

(** The signature of [ScoreFactor.__init__]. *)
Definition ScoreFactor_params : Signature :=
  (reader_params ++
  [ ("keep_all_timestamp", Some (PyBool false));
    ("fill_method", Some (PyStr "ffill"));
    ("effective_number", Some (PyInt 10));
    ("transformers", Some (PyList []));
    ("need_persist", Some (PyBool true));
    ("dry_run", Some (PyBool true));
    ("scorer", Some PyNone) ])%list.

(** The names [ScoreFactor.__init__] passes on, in the order it writes
    them in [super().__init__(...)]. *)
Definition super_call_names : list string :=
  (map fst reader_params ++
  [ "keep_all_timestamp"; "fill_method"; "effective_number"; "transformers";
    "need_persist"; "dry_run" ])%list.

Definition value_of (env : list (string * PyVal)) (n : string) : PyVal :=
  match lookup n env with
  | Some v => v
  | None => PyNone
  end.

(** [ScoreFactor.__init__] called with [args]: its own parameters are
    bound, then the base constructor is called positionally; the result
    is the binding of the parameters of [Factor.__init__]. *)
Definition ScoreFactor_init (args : list PyVal) : Result (list (string * PyVal)) :=
  match bind_positional ScoreFactor_params args with
  | Raise e => Raise e
  | Ok env => bind_positional Factor_params (map (value_of env) super_call_names)
  end.

(** ** Auxiliary notions and example objects *)

(** The inputs of a cycle: raw frame, configuration and collaborators. *)
Definition same_inputs (s s' : Factor) : Prop :=
  cls s' = cls s /\ data_df s' = data_df s /\
  transformers s' = transformers s /\ accumulator s' = accumulator s /\
  scorer s' = scorer s.

(** The frame [do_compute] leaves in [factor_df] when no accumulator is
    configured, as a function of the working frame it starts from. *)
Definition stateless_factor (s : Factor) : Frame :=
  if df_is_not_null (pipe_df s) && nonempty (transformers s)
  then match chain (transformers s) (pipe_df s) with
       | Ok d => d
       | Raise _ => factor_df s
       end
  else pipe_df s.

Definition day (n : Z) : Timestamp := n * DAY.

(** Arithmetic on the numeric cells of every column. *)
Definition map_cells (f : Z -> Z) : Transformer :=
  fun df =>
    match df with
    | None => Ok None
    | Some d =>
        Ok (Some {| index := index d;
                    columns := map (fun c => (fst c,
                                 map (fun x => match x with
                                               | Some (Num z) => Some (Num (f z))
                                               | other => other
                                               end) (snd c)))
                               (columns d) |})
    end.

Definition add_one : Transformer := map_cells (fun z => z + 1).
Definition double : Transformer := map_cells (fun z => 2 * z).
Definition failing : Transformer := fun _ => Raise (CollaboratorError "transform").

(** An accumulator that keeps the old factor frame when there is one. *)
Definition keep_old : Accumulator :=
  fun pipe old => match old with Some _ => Ok old | None => Ok pipe end.

Definition no_failure : Frame -> option exn := fun _ => None.

Definition raw_df : DataFrame :=
  {| index := [("e1", day 0); ("e1", day 1); ("e2", day 0)];
     columns := [("close", [Some (Num 10); Some (Num 11); Some (Num 7)])] |}.

Definition old_factor_df : DataFrame :=
  {| index := [("e1", day 0)];
     columns := [("close", [Some (Num 3)])] |}.

Definition example_factor (c : FactorClass) (ts : list Transformer)
    (acc : option Accumulator) (data factor pipe : Frame) : Factor :=
  mkFactor c (Some (day 0)) (Some (day 4)) 250 false "ffill" 10 ts acc
    true false None StateFactor_states data factor pipe None [].

Definition keep_first_from (seen idx : list Key) : list Key :=
  select (map negb (duplicated_from seen idx)) idx.

Definition gap_series : DataFrame :=
  {| index := [("e1", day 0); ("e1", day 1); ("e1", day 2); ("e1", day 3); ("e1", day 4)];
     columns := [("value", [Some (Num 1); None; None; None; Some (Num 5)])] |}.

Definition gap_filled : DataFrame :=
  {| index := index gap_series;
     columns := [("value", [Some (Num 1); Some (Num 1); Some (Num 1); None; Some (Num 5)])] |}.

(** A factor that keeps all timestamps over five days, forward fill,
    [effective_number = 2]. *)
Definition gap_factor (result : Frame) : Factor :=
  mkFactor CFactor (Some (day 0)) (Some (day 4)) 250 true "ffill" 2 [] None
    false false None StateFactor_states None None None result [].

(** A frame with a row and no column is empty. *)
Definition no_columns_df : DataFrame :=
  {| index := [("e1", day 0)]; columns := [] |}.

(** A state factor whose working frame is the raw frame, with the
    [declared] states. *)
Definition state_factor (declared : list string) : Factor :=
  mkFactor CStateFactor (Some (day 0)) (Some (day 4)) 250 false "ffill" 10 [] None
    true false None declared (Some raw_df) None (Some raw_df) None [].

(** ** The registries *)

(** A class object: its [__name__] and the names it defines. *)
Record PyClass := mkClass {
  class_name : string;
  class_dict : list string
}.

Section Registry.

(** What a registry stores under a class name. *)
Variable V : Type.

(** A Python [dict] keyed by class name, in insertion order. *)
Definition Registry := list (string * V).

Fixpoint dict_get (n : string) (d : Registry) : option V :=
  match d with
  | [] => None
  | (m, v) :: r => if String.eqb n m then Some v else dict_get n r
  end.

(** [d[n] = v]: an existing key keeps its place and takes the new
    value, a new key goes last. *)
Fixpoint dict_set (n : string) (v : V) (d : Registry) : Registry :=
  match d with
  | [] => [(n, v)]
  | (m, w) :: r =>
      if String.eqb n m then (m, v) :: r else (m, w) :: dict_set n v r
  end.

(** The names both registration functions leave out. *)
Definition base_names : list string :=
  ["Factor"; "FilterFactor"; "ScoreFactor"; "StateFactor"].

Definition is_base_name (n : string) : bool :=
  existsb (String.eqb n) base_names.

(** The body shared by [register_instance] and [register_class]. *)
Definition register (c : PyClass) (v : V) (reg : Registry) : Registry :=
  if negb (is_base_name (class_name c)) then dict_set (class_name c) v reg
  else reg.

(** The last value registered for a class called [n]. *)
Definition last_registered (n : string) (calls : list (PyClass * V)) : option V :=
  match find (fun cv => String.eqb (class_name (fst cv)) n) (rev calls) with
  | Some cv => Some (snd cv)
  | None => None
  end.

Definition register_all (calls : list (PyClass * V)) (reg : Registry) : Registry :=
  fold_left (fun r cv => register (fst cv) (snd cv) r) calls reg.

End Registry.

Arguments dict_get {V} n d.
Arguments dict_set {V} n v d.
Arguments register {V} c v reg.
Arguments last_registered {V} n calls.
Arguments register_all {V} calls reg.

Definition register_instance {I : Type} (c : PyClass) (instance : I)
    (factor_instance_registry : Registry I) : Registry I :=
  register c instance factor_instance_registry.

Definition register_class (target_class : PyClass)
    (factor_cls_registry : Registry PyClass) : Registry PyClass :=
  register target_class target_class factor_cls_registry.

(** [Meta.__new__]: the class is built, registered and returned. *)
Definition Meta_new (name : string) (class_dict : list string)
    (factor_cls_registry : Registry PyClass) : PyClass * Registry PyClass :=
  let c := mkClass name class_dict in
  (c, register_class c factor_cls_registry).

(** ** Notions used to state a whole cycle *)

(** The configuration and the raw frame of a factor: the object with
    its three working frames and the sink's record blanked. *)
Definition frames_erased (s : Factor) : Factor :=
  mkFactor (cls s) (start_timestamp s) (end_timestamp s) (valid_window s)
    (keep_all_timestamp s) (fill_method s) (effective_number s) (transformers s)
    (accumulator s) (need_persist s) (dry_run s) (scorer s) (states s)
    (data_df s) None None None [].

(** The working frame a cycle reaches after its transformers. *)
Definition transformed (s : Factor) : Result Frame :=
  if df_is_not_null (data_df s) && nonempty (transformers s)
  then chain (transformers s) (data_df s)
  else Ok (data_df s).

(** The factor frame the stateful stage derives from the working
    frame [d]. *)
Definition next_factor (s : Factor) (d : Frame) : Result Frame :=
  match df_is_not_null d, accumulator s with
  | true, Some acc => acc d (factor_df s)
  | _, _ => Ok d
  end.

Definition failing_acc : Accumulator :=
  fun _ _ => Raise (CollaboratorError "accumulate").

Definition failing_scorer : Scorer :=
  fun _ => Raise (CollaboratorError "score").

Definition sink_down : Frame -> option exn :=
  fun _ => Some (CollaboratorError "database").

(** A score factor on the raw frame, with a scorer. *)
Definition score_factor (ts : list Transformer) (sc : option Scorer) : Factor :=
  mkFactor CScoreFactor (Some (day 0)) (Some (day 4)) 250 false "ffill" 10 ts None
    true false sc StateFactor_states (Some raw_df) (Some old_factor_df)
    (Some raw_df) None [].

(** The keeping of valid cells, cell by cell. *)
Definition keeps_valid (xs ys : list Cell) : Prop :=
  Forall2 (fun x y => forall v, x = Some v -> y = Some v) xs ys.

(** The last stamp of [date_range a b] when [a <= b]. *)
Definition last_day (a b : Timestamp) : Timestamp :=
  a + ((b - a) / DAY) * DAY.

(** * Properties *)

(** ** Setters and the chain *)

Lemma set_pipe_df_same (s : Factor) : set_pipe_df s (pipe_df s) = s.
Proof. destruct s; reflexivity. Qed.

Lemma chain_cons (t : Transformer) (ts : list Transformer) (df : Frame) :
  chain (t :: ts) df = match t df with Ok d => chain ts d | Raise e => Raise e end.
Proof.
  unfold chain; simpl. destruct (t df) as [d|e]; [reflexivity|].
  induction ts as [|u r IH]; simpl; auto.
Qed.

Lemma chain_app (ts1 ts2 : list Transformer) (df : Frame) :
  chain (ts1 ++ ts2) df =
  match chain ts1 df with Ok d => chain ts2 d | Raise e => Raise e end.
Proof.
  revert df; induction ts1 as [|t r IH]; intros df.
  - reflexivity.
  - simpl app. rewrite !chain_cons. destruct (t df); auto.
Qed.

Lemma chain_raise_nonempty (ts : list Transformer) (df : Frame) (e : exn) :
  chain ts df = Raise e -> nonempty ts = true.
Proof. destruct ts; [discriminate | reflexivity]. Qed.

(** The loop over the transformers computes the chain on the working
    frame; when a transformer raises, the working frame is the one the
    last successful transformer returned. *)
Lemma for_transformers_chain (ts : list Transformer) (s : Factor) :
  for_transformers ts s =
  match chain ts (pipe_df s) with
  | Ok d => (Ok tt, set_pipe_df s d)
  | Raise e => (Raise e, set_pipe_df s (last_good ts (pipe_df s)))
  end.
Proof.
  revert s; induction ts as [|t r IH]; intros s.
  - simpl. unfold chain, ret; simpl. now rewrite set_pipe_df_same.
  - rewrite chain_cons. simpl. unfold bind, assign.
    destruct (t (pipe_df s)) as [d|e].
    + rewrite IH. simpl. destruct (chain r d); reflexivity.
    + now rewrite set_pipe_df_same.
Qed.

(** ** What a stage leaves alone *)

Lemma same_inputs_refl (s : Factor) : same_inputs s s.
Proof. repeat split. Qed.

Lemma same_inputs_trans (s1 s2 s3 : Factor) :
  same_inputs s1 s2 -> same_inputs s2 s3 -> same_inputs s1 s3.
Proof.
  unfold same_inputs; intros (a & b & c & d & e) (a' & b' & c' & d' & e').
  repeat split; congruence.
Qed.

Ltac break_match :=
  repeat match goal with
    | |- context [match ?x with _ => _ end] => destruct x eqn:?; simpl
    end.

Lemma for_transformers_inputs (ts : list Transformer) (s : Factor) :
  same_inputs s (snd (for_transformers ts s)) /\
  factor_df (snd (for_transformers ts s)) = factor_df s /\
  df_to_db_calls (snd (for_transformers ts s)) = df_to_db_calls s.
Proof.
  rewrite for_transformers_chain.
  destruct (chain ts (pipe_df s)); simpl; repeat split.
Qed.

Lemma transform_stage_inputs (s : Factor) :
  same_inputs s (snd (transform_stage s)) /\
  factor_df (snd (transform_stage s)) = factor_df s /\
  df_to_db_calls (snd (transform_stage s)) = df_to_db_calls s.
Proof.
  unfold transform_stage.
  destruct (df_is_not_null (pipe_df s) && nonempty (transformers s)).
  - apply for_transformers_inputs.
  - repeat split.
Qed.

Lemma accumulate_stage_inputs (s : Factor) :
  same_inputs s (snd (accumulate_stage s)).
Proof.
  unfold accumulate_stage, assign. break_match; repeat split.
Qed.

Lemma Factor_do_compute_inputs (s : Factor) :
  same_inputs s (snd (Factor_do_compute s)).
Proof.
  unfold Factor_do_compute, bind.
  pose proof (transform_stage_inputs s) as (H & _).
  destruct (transform_stage s) as [[[]|e] s1]; simpl in *; auto.
  eapply same_inputs_trans; [exact H | apply accumulate_stage_inputs].
Qed.

Lemma do_compute_inputs (s : Factor) :
  same_inputs s (snd (do_compute s)).
Proof.
  unfold do_compute. destruct (cls s); try apply Factor_do_compute_inputs.
  unfold ScoreFactor_do_compute, bind.
  pose proof (Factor_do_compute_inputs s) as H.
  destruct (Factor_do_compute s) as [[[]|e] s1]; simpl in *; auto.
  eapply same_inputs_trans; [exact H|].
  unfold assign. break_match; repeat split.
Qed.

Lemma fill_gap_inputs (s : Factor) :
  same_inputs s (snd (fill_gap s)) /\
  factor_df (snd (fill_gap s)) = factor_df s /\
  need_persist (snd (fill_gap s)) = need_persist s.
Proof.
  unfold fill_gap. break_match; repeat split.
Qed.

Lemma after_compute_inputs (env : Frame -> option exn) (s : Factor) :
  same_inputs s (snd (after_compute env s)) /\
  factor_df (snd (after_compute env s)) = factor_df s.
Proof.
  unfold after_compute, bind.
  pose proof (fill_gap_inputs s) as (H & Hf & _).
  destruct (fill_gap s) as [[[]|e] s1]; simpl in *; auto.
  unfold persist_result. break_match; split; auto;
    unfold same_inputs in *; simpl; tauto.
Qed.

Lemma Factor_do_compute_stateless (s : Factor) :
  accumulator s = None ->
  factor_df (snd (Factor_do_compute s)) = stateless_factor s.
Proof.
  intros Hacc. unfold Factor_do_compute, bind, transform_stage, stateless_factor.
  destruct (df_is_not_null (pipe_df s) && nonempty (transformers s)).
  - rewrite for_transformers_chain.
    destruct (chain (transformers s) (pipe_df s)); simpl; auto.
    unfold accumulate_stage; simpl. rewrite Hacc. break_match; reflexivity.
  - unfold accumulate_stage. rewrite Hacc. break_match; reflexivity.
Qed.

Lemma do_compute_stateless (s : Factor) :
  accumulator s = None ->
  factor_df (snd (do_compute s)) = stateless_factor s.
Proof.
  intros Hacc. unfold do_compute.
  destruct (cls s); try now apply Factor_do_compute_stateless.
  unfold ScoreFactor_do_compute, bind.
  pose proof (Factor_do_compute_stateless s Hacc) as H.
  destruct (Factor_do_compute s) as [[[]|e] s1]; simpl in *; auto.
  unfold assign. break_match; auto.
Qed.

Lemma compute_stateless (env : Frame -> option exn) (s : Factor) :
  accumulator s = None ->
  factor_df (snd (compute env s)) = stateless_factor (set_pipe_df s (data_df s)) /\
  same_inputs s (snd (compute env s)).
Proof.
  intros Hacc. unfold compute, bind, pre_compute.
  set (s0 := set_pipe_df s (data_df s)).
  assert (Hacc0 : accumulator s0 = None) by exact Hacc.
  pose proof (do_compute_stateless s0 Hacc0) as Hf.
  pose proof (do_compute_inputs s0) as Hi.
  destruct (do_compute s0) as [[[]|e] s1]; simpl in *.
  - pose proof (after_compute_inputs env s1) as (Hi' & Hf').
    split; [congruence|].
    eapply same_inputs_trans; [|exact Hi']. exact Hi.
  - split; auto.
Qed.

Lemma accumulate_stage_pipe_df (s : Factor) :
  pipe_df (snd (accumulate_stage s)) = pipe_df s.
Proof. unfold accumulate_stage, assign. break_match; reflexivity. Qed.

Lemma transform_stage_chain (s : Factor) (d : Frame) :
  df_is_not_null (pipe_df s) = true ->
  chain (transformers s) (pipe_df s) = Ok d ->
  transform_stage s = (Ok tt, set_pipe_df s d).
Proof.
  intros Hnn Hc. unfold transform_stage. rewrite Hnn; simpl.
  destruct (transformers s) as [|t r] eqn:Hts; simpl nonempty; cbv iota.
  - unfold chain in Hc; simpl in Hc. injection Hc as <-.
    now rewrite set_pipe_df_same.
  - rewrite for_transformers_chain, Hc. reflexivity.
Qed.

Lemma transform_stage_nil (s : Factor) :
  transformers s = [] -> transform_stage s = (Ok tt, s).
Proof.
  intros H. unfold transform_stage. rewrite H; simpl.
  now rewrite andb_false_r.
Qed.

(** ** The transformer chain *)

(** C10: [do_compute] runs the transformers one after the other in the
    order of the list, each on the frame the previous one returned, and
    with an empty list the working frame is what it was. *)
Theorem transformers_applied_in_order :
  (forall s d,
      df_is_not_null (pipe_df s) = true ->
      chain (transformers s) (pipe_df s) = Ok d ->
      transform_stage s = (Ok tt, set_pipe_df s d) /\
      pipe_df (snd (Factor_do_compute s)) = d) /\
  (forall t ts df,
      chain (t :: ts) df =
      match t df with Ok d => chain ts d | Raise e => Raise e end) /\
  (forall s,
      transformers s = [] ->
      transform_stage s = (Ok tt, s) /\
      pipe_df (snd (Factor_do_compute s)) = pipe_df s).
Proof.
  split; [|split].
  - intros s d Hnn Hc. pose proof (transform_stage_chain s d Hnn Hc) as H.
    split; [exact H|].
    unfold Factor_do_compute, bind. rewrite H.
    now rewrite accumulate_stage_pipe_df.
  - intros; apply chain_cons.
  - intros s Hnil. pose proof (transform_stage_nil s Hnil) as H.
    split; [exact H|].
    unfold Factor_do_compute, bind. rewrite H.
    apply accumulate_stage_pipe_df.
Qed.

Lemma transformers_applied_in_order_witness :
  let s := example_factor CFactor [add_one; double] None None None (Some raw_df) in
  let s' := example_factor CFactor [double; add_one] None None None (Some raw_df) in
  option_map columns (pipe_df (snd (Factor_do_compute s))) =
    Some [("close", [Some (Num 22); Some (Num 24); Some (Num 16)])] /\
  option_map columns (pipe_df (snd (Factor_do_compute s'))) =
    Some [("close", [Some (Num 21); Some (Num 23); Some (Num 15)])].
Proof.
  split.
  - rewrite (proj2 (proj1 transformers_applied_in_order
               (example_factor CFactor [add_one; double] None None None (Some raw_df))
               (Some {| index := index raw_df;
                        columns := [("close", [Some (Num 22); Some (Num 24); Some (Num 16)])] |})
               eq_refl eq_refl)).
    reflexivity.
  - rewrite (proj2 (proj1 transformers_applied_in_order
               (example_factor CFactor [double; add_one] None None None (Some raw_df))
               (Some {| index := index raw_df;
                        columns := [("close", [Some (Num 21); Some (Num 23); Some (Num 15)])] |})
               eq_refl eq_refl)).
    reflexivity.
Defined.

(** ** Abort on a failing transformer *)

(** C1: when a transformer raises during a cycle, [compute] raises the
    same exception, [factor_df] is what it was before the cycle and the
    persistence sink has not been called. *)
Theorem compute_aborts_when_transformer_raises
    (env : Frame -> option exn) (s : Factor) (e : exn) :
  df_is_not_null (data_df s) = true ->
  chain (transformers s) (data_df s) = Raise e ->
  exists s',
    compute env s = (Raise e, s') /\
    factor_df s' = factor_df s /\
    df_to_db_calls s' = df_to_db_calls s.
Proof.
  intros Hnn Hc.
  exists (set_pipe_df s (last_good (transformers s) (data_df s))).
  split; [|split; reflexivity].
  assert (Ht : transform_stage (set_pipe_df s (data_df s)) =
               (Raise e, set_pipe_df s (last_good (transformers s) (data_df s)))).
  { unfold transform_stage. simpl. rewrite Hnn.
    rewrite (chain_raise_nonempty _ _ _ Hc). simpl.
    rewrite for_transformers_chain. simpl. rewrite Hc. reflexivity. }
  unfold compute, bind, pre_compute, do_compute. simpl.
  destruct (cls s); unfold ScoreFactor_do_compute, Factor_do_compute, bind;
    rewrite Ht; reflexivity.
Qed.

Lemma compute_aborts_when_transformer_raises_witness :
  let s := example_factor CFactor [add_one; failing; double] None
             (Some raw_df) (Some old_factor_df) None in
  exists s',
    compute no_failure s = (Raise (CollaboratorError "transform"), s') /\
    factor_df s' = Some old_factor_df /\
    df_to_db_calls s' = [].
Proof.
  apply (compute_aborts_when_transformer_raises no_failure
           (example_factor CFactor [add_one; failing; double] None
              (Some raw_df) (Some old_factor_df) None)
           (CollaboratorError "transform")); reflexivity.
Defined.

(** ** The accumulator stage *)

(** C4: when the working frame is empty or absent once the transformers
    have run, [do_compute] stores that frame in [factor_df], whatever
    accumulator is configured and whatever [factor_df] held. *)
Theorem do_compute_null_pipe_replaces_factor (s s1 : Factor) :
  transform_stage s = (Ok tt, s1) ->
  df_is_not_null (pipe_df s1) = false ->
  do_compute s = (Ok tt, set_factor_df s1 (pipe_df s1)) /\
  factor_df (snd (do_compute s)) = pipe_df s1.
Proof.
  intros Ht Hnull.
  assert (H : Factor_do_compute s = (Ok tt, set_factor_df s1 (pipe_df s1))).
  { unfold Factor_do_compute, bind. rewrite Ht.
    unfold accumulate_stage. now rewrite Hnull. }
  assert (Hd : do_compute s = (Ok tt, set_factor_df s1 (pipe_df s1))).
  { unfold do_compute. destruct (cls s); auto.
    unfold ScoreFactor_do_compute, bind. rewrite H. simpl. now rewrite Hnull. }
  split; [exact Hd | now rewrite Hd].
Qed.

Lemma do_compute_null_pipe_replaces_factor_witness :
  let s := example_factor CFactor [add_one] (Some keep_old) None
             (Some old_factor_df) None in
  do_compute s = (Ok tt, set_factor_df s None) /\
  factor_df (snd (do_compute s)) = None.
Proof.
  apply (do_compute_null_pipe_replaces_factor
           (example_factor CFactor [add_one] (Some keep_old) None
              (Some old_factor_df) None)
           (example_factor CFactor [add_one] (Some keep_old) None
              (Some old_factor_df) None)); reflexivity.
Defined.

(** C6: without an accumulator the stateful stage is skipped, and after
    [do_compute] the factor frame is the working frame the transformers
    left. *)
Theorem do_compute_without_accumulator (s s1 : Factor) :
  accumulator s = None ->
  transform_stage s = (Ok tt, s1) ->
  Factor_do_compute s = (Ok tt, set_factor_df s1 (pipe_df s1)) /\
  factor_df (snd (do_compute s)) = pipe_df s1.
Proof.
  intros Hacc Ht.
  pose proof (transform_stage_inputs s) as ((_ & _ & _ & Ha & _) & _).
  rewrite Ht in Ha; simpl in Ha.
  assert (H : Factor_do_compute s = (Ok tt, set_factor_df s1 (pipe_df s1))).
  { unfold Factor_do_compute, bind. rewrite Ht.
    unfold accumulate_stage. rewrite Ha, Hacc.
    destruct (df_is_not_null (pipe_df s1)); reflexivity. }
  split; [exact H|].
  unfold do_compute. destruct (cls s); try now rewrite H.
  unfold ScoreFactor_do_compute, bind. rewrite H. simpl.
  unfold assign. break_match; reflexivity.
Qed.

Lemma do_compute_without_accumulator_witness :
  let s := example_factor CFactor [add_one] None None
             (Some old_factor_df) (Some raw_df) in
  option_map columns (factor_df (snd (do_compute s))) =
    Some [("close", [Some (Num 11); Some (Num 12); Some (Num 8)])].
Proof.
  intros s.
  rewrite (proj2 (do_compute_without_accumulator s
                    (set_pipe_df s (match add_one (Some raw_df) with
                                    | Ok d => d | Raise _ => None end))
                    eq_refl eq_refl)).
  reflexivity.
Defined.

(** ** Idempotence *)

(** C5: with no accumulator, a second [compute] on the object the first
    one left (same raw frame, same transformers) ends with the factor
    frame the first one produced. *)
Theorem compute_twice_same_factor (env : Frame -> option exn) (s : Factor) :
  accumulator s = None ->
  factor_df (snd (compute env (snd (compute env s)))) =
  factor_df (snd (compute env s)).
Proof.
  intros Hacc.
  destruct (compute_stateless env s Hacc) as (Hf & Hc & Hd & Ht & Ha & _).
  set (s1 := snd (compute env s)) in *.
  assert (Hacc1 : accumulator s1 = None) by congruence.
  destruct (compute_stateless env s1 Hacc1) as (Hf1 & _).
  unfold stateless_factor in Hf, Hf1; simpl in Hf, Hf1.
  rewrite Hd, Ht in Hf1.
  destruct (df_is_not_null (data_df s) && nonempty (transformers s));
    [destruct (chain (transformers s) (data_df s))|]; congruence.
Qed.

Lemma compute_twice_same_factor_witness :
  let s := example_factor CFactor [add_one; double] None (Some raw_df) None None in
  factor_df (snd (compute no_failure (snd (compute no_failure s)))) =
  factor_df (snd (compute no_failure s)).
Proof.
  apply (compute_twice_same_factor no_failure
           (example_factor CFactor [add_one; double] None (Some raw_df) None None)).
  reflexivity.
Defined.

(** ** The gap filler: labels *)

Lemma key_eqb_eq (a b : Key) : key_eqb a b = true <-> a = b.
Proof.
  destruct a as [e t], b as [e' t']; unfold key_eqb; simpl.
  rewrite andb_true_iff, String.eqb_eq, Z.eqb_eq.
  split; [intros [-> ->]; reflexivity | intros H; injection H; auto].
Qed.

Lemma key_eqb_refl (a : Key) : key_eqb a a = true.
Proof. now apply key_eqb_eq. Qed.

Lemma mem_key_In (k : Key) (l : list Key) : mem_key k l = true <-> In k l.
Proof.
  unfold mem_key. rewrite existsb_exists. split.
  - intros (x & Hx & He). apply key_eqb_eq in He. now subst.
  - intros H. exists k. split; [exact H | apply key_eqb_refl].
Qed.

Lemma unique_NoDup (l : list Key) : unique l = true <-> NoDup l.
Proof.
  induction l as [|k r IH]; simpl.
  - split; [constructor | reflexivity].
  - rewrite andb_true_iff, negb_true_iff, NoDup_cons_iff, IH.
    rewrite <- not_true_iff_false, mem_key_In. tauto.
Qed.

Lemma NoDup_map_injective {A B : Type} (f : A -> B) (l : list A) :
  (forall x y, f x = f y -> x = y) -> NoDup l -> NoDup (map f l).
Proof.
  intros Hinj Hl. induction Hl as [|x l Hx Hl IH]; simpl; constructor; auto.
  rewrite in_map_iff. intros (y & Hy & Hin). apply Hinj in Hy. now subst.
Qed.

Lemma NoDup_list_prod {A B : Type} (l : list A) (l' : list B) :
  NoDup l -> NoDup l' -> NoDup (list_prod l l').
Proof.
  intros Hl Hl'. induction Hl as [|x l Hx Hl IH]; simpl.
  - constructor.
  - apply NoDup_app; auto.
    + apply NoDup_map_injective; auto. intros ? ? H; now injection H.
    + intros [a b]. rewrite in_map_iff, in_prod_iff.
      intros (y & Hy & _) (Ha & _). injection Hy as -> _. contradiction.
Qed.

Lemma DAY_pos : 0 < DAY.
Proof. reflexivity. Qed.

(** The stamps of [date_range a b] are the whole days after [a] that do
    not pass [b]. *)
Lemma date_range_spec (a b t : Timestamp) :
  In t (date_range a b) <-> exists n, 0 <= n /\ t = a + n * DAY /\ t <= b.
Proof.
  pose proof DAY_pos as HD. unfold date_range.
  destruct (Z.leb_spec a b) as [Hab|Hab].
  - rewrite in_map_iff. split.
    + intros (k & <- & Hk). apply in_seq in Hk.
      exists (Z.of_nat k). split; [lia|]. split; [reflexivity|].
      assert (Z.of_nat k <= (b - a) / DAY).
      { assert (0 <= (b - a) / DAY) by (apply Z.div_pos; lia). lia. }
      assert (DAY * ((b - a) / DAY) <= b - a) by (apply Z.mul_div_le; lia).
      nia.
    + intros (n & Hn & -> & Hle).
      exists (Z.to_nat n). split; [rewrite Z2Nat.id; auto|].
      apply in_seq.
      assert (n <= (b - a) / DAY) by (apply Z.div_le_lower_bound; lia).
      lia.
  - simpl. split; [tauto|]. intros (n & Hn & -> & Hle). nia.
Qed.

Lemma date_range_NoDup (a b : Timestamp) : NoDup (date_range a b).
Proof.
  pose proof DAY_pos as HD. unfold date_range.
  destruct (a <=? b); [|constructor].
  apply NoDup_map_injective; [|apply seq_NoDup].
  intros x y H. nia.
Qed.

Lemma insert_level_In (e x : string) (l : list string) :
  In x (insert_level e l) <-> x = e \/ In x l.
Proof.
  induction l as [|y r IH]; simpl.
  - intuition congruence.
  - destruct (String_as_OT.compare_spec e y) as [Heq|Hlt|Hgt]; simpl.
    + subst. intuition congruence.
    + intuition congruence.
    + rewrite IH. intuition congruence.
Qed.

Lemma insert_level_sorted (e : string) (l : list string) :
  StronglySorted String_as_OT.lt l ->
  StronglySorted String_as_OT.lt (insert_level e l).
Proof.
  intros Hs. induction Hs as [|y r Hr IH Hall]; simpl.
  - repeat constructor.
  - destruct (String_as_OT.compare_spec e y) as [Heq|Hlt|Hgt].
    + constructor; auto.
    + constructor; [constructor; auto|].
      constructor; auto.
      eapply Forall_impl; [|exact Hall].
      intros z Hz. now transitivity y.
    + constructor; auto.
      apply Forall_forall. intros z Hz. apply insert_level_In in Hz.
      destruct Hz as [->|Hz]; auto.
      rewrite Forall_forall in Hall. auto.
Qed.

Lemma levels0_sorted (idx : list Key) :
  StronglySorted String_as_OT.lt (levels0 idx).
Proof.
  induction idx as [|k r IH]; simpl.
  - constructor.
  - now apply insert_level_sorted.
Qed.

Lemma sorted_NoDup (l : list string) :
  StronglySorted String_as_OT.lt l -> NoDup l.
Proof.
  intros Hs. induction Hs as [|y r Hr IH Hall]; constructor; auto.
  intros Hin. rewrite Forall_forall in Hall. apply Hall in Hin.
  now apply (irreflexivity (R := String_as_OT.lt)) in Hin.
Qed.

(** The first level holds exactly the entities of the index. *)
Lemma levels0_In (idx : list Key) (e : string) :
  In e (levels0 idx) <-> exists t, In (e, t) idx.
Proof.
  induction idx as [|[e0 t0] r IH]; simpl.
  - split; [tauto | intros (t & [])].
  - rewrite insert_level_In, IH. split.
    + intros [->|(t & Ht)]; [exists t0; auto | exists t; auto].
    + intros (t & [H|H]); [injection H as -> _; auto | right; now exists t].
Qed.

(** ** The gap filler: duplicates *)

Lemma select_nil_r {A : Type} (mask : list bool) : select mask (@nil A) = [].
Proof. destruct mask as [|[] m]; reflexivity. Qed.

(** Dropping the repeated labels leaves each label once, and none that
    was seen before. *)
Lemma keep_first_from_unique (idx seen : list Key) :
  unique (keep_first_from seen idx) = true /\
  forall k, mem_key k seen = true -> mem_key k (keep_first_from seen idx) = false.
Proof.
  unfold keep_first_from.
  revert seen; induction idx as [|k r IH]; intros seen; simpl.
  - split; auto.
  - destruct (IH (k :: seen)) as (Hu & Hs).
    destruct (mem_key k seen) eqn:Hk; simpl.
    + split; auto. intros k' Hk'. apply Hs. simpl. now rewrite Hk', orb_true_r.
    + split.
      * rewrite Hu, andb_true_r, negb_true_iff. apply Hs.
        simpl. now rewrite key_eqb_refl.
      * intros k' Hk'. rewrite orb_false_iff. split.
        -- destruct (key_eqb k' k) eqn:He; auto.
           apply key_eqb_eq in He. congruence.
        -- apply Hs. simpl. now rewrite Hk', orb_true_r.
Qed.

Lemma first_value_nil_col (idx : list Key) (k : Key) : first_value idx [] k = None.
Proof. destruct idx; reflexivity. Qed.

(** After the repeated labels are dropped, a label still finds the cell
    of its first row. *)
Lemma first_value_keep_first (idx : list Key) (col : list Cell) (seen : list Key) (k : Key) :
  mem_key k seen = false ->
  first_value (keep_first_from seen idx)
              (select (map negb (duplicated_from seen idx)) col) k =
  first_value idx col k.
Proof.
  unfold keep_first_from.
  revert col seen; induction idx as [|k0 r IH]; intros col seen Hk; simpl.
  - reflexivity.
  - destruct col as [|c cr].
    + apply first_value_nil_col.
    + destruct (key_eqb k k0) eqn:He.
      * apply key_eqb_eq in He; subst k0. rewrite Hk; simpl.
        now rewrite key_eqb_refl.
      * assert (Hk' : mem_key k (k0 :: seen) = false) by (simpl; now rewrite He, Hk).
        destruct (mem_key k0 seen); simpl.
        -- now apply IH.
        -- rewrite He. now apply IH.
Qed.

(** ** The gap filler: the cap of the fill *)

Lemma pad_from_gap (n : nat) (v : Scalar) (k c : nat) (rest : list Cell) :
  pad_from n (Some v) c (repeat None k ++ rest) =
  repeat (Some v) (Nat.min k (n - c)) ++ repeat None (k - (n - c)) ++
  pad_from n (Some v) (c + k) rest.
Proof.
  revert c; induction k as [|k IH]; intros c; simpl.
  - now rewrite Nat.add_0_r.
  - rewrite IH. replace (S c + k)%nat with (c + S k)%nat by lia.
    destruct (Nat.ltb_spec c n) as [Hlt|Hge].
    + destruct (n - c)%nat as [|m] eqn:Hm; [lia|].
      replace (n - S c)%nat with m by lia. reflexivity.
    + replace (n - c)%nat with 0%nat by lia.
      replace (n - S c)%nat with 0%nat by lia.
      rewrite !Nat.min_0_r, !Nat.sub_0_r. reflexivity.
Qed.

(** Forward fill over a gap of [k] missing cells after a valid one fills
    [min k n] of them and leaves the others missing. *)
Lemma pad_gap_capped (n : nat) (v w : Scalar) (k : nat) (rest : list Cell) :
  fill_column pad n (Some v :: repeat None k ++ Some w :: rest) =
  Some v :: repeat (Some v) (Nat.min k n) ++ repeat None (k - n) ++
  fill_column pad n (Some w :: rest).
Proof.
  unfold fill_column; simpl. rewrite pad_from_gap, Nat.sub_0_r. reflexivity.
Qed.

(** ** The gap filler on a frame *)

Lemma fill_gap_runs (s : Factor) (df : DataFrame) (a b : Timestamp) (m : FillMethod) :
  keep_all_timestamp s = true ->
  result_df s = Some df ->
  start_timestamp s = Some a ->
  end_timestamp s = Some b ->
  clean_fill_method (fill_method s) = Some m ->
  1 <= effective_number s ->
  fill_gap s =
  (Ok tt,
   set_result_df s
     (Some {| index := from_product (levels0 (index df)) (date_range a b);
              columns :=
                map (fun c => (fst c,
                       fill_column m (Z.to_nat (effective_number s))
                         (map (first_value (index df) (snd c))
                              (from_product (levels0 (index df)) (date_range a b)))))
                    (columns df) |})).
Proof.
  intros Hk Hr Ha Hb Hm Hn. unfold fill_gap.
  rewrite Hk, Ha, Hb, Hr. cbv zeta.
  unfold reindex, loc, duplicated; simpl index.
  fold (keep_first_from [] (index df)).
  rewrite (proj1 (keep_first_from_unique (index df) [])).
  unfold fillna; simpl fill_method; simpl effective_number. rewrite Hm.
  destruct (Z.ltb_spec (effective_number s) 1) as [Hlt|_]; [lia|].
  unfold set_result_df; simpl. do 3 f_equal.
  rewrite ?map_map; simpl. f_equal.
  apply map_ext. intros c. f_equal. f_equal.
  apply map_ext. intros k.
  now apply (first_value_keep_first (index df) (snd c) [] k).
Qed.

(** C7: with all timestamps kept, [fill_gap] puts the result frame on
    the index of every entity crossed with every day from the start to
    the end, reads each label from its first row in the old frame, and
    fills each column along the fill direction, at most
    [effective_number] cells after a valid one; [1, NaN, NaN, NaN, 5]
    over five days with forward fill and a cap of two becomes
    [1, 1, 1, NaN, 5]. *)
Theorem fill_gap_dense_first_capped :
  (forall s df a b m,
      keep_all_timestamp s = true ->
      result_df s = Some df ->
      start_timestamp s = Some a ->
      end_timestamp s = Some b ->
      clean_fill_method (fill_method s) = Some m ->
      1 <= effective_number s ->
      exists df',
        fill_gap s = (Ok tt, set_result_df s (Some df')) /\
        index df' = from_product (levels0 (index df)) (date_range a b) /\
        NoDup (index df') /\
        (forall e t,
            In (e, t) (index df') <->
            (exists t0, In (e, t0) (index df)) /\
            (exists n, 0 <= n /\ t = a + n * DAY /\ t <= b)) /\
        columns df' =
          map (fun c => (fst c,
                 fill_column m (Z.to_nat (effective_number s))
                   (map (first_value (index df) (snd c)) (index df'))))
              (columns df)) /\
  (forall n v w k rest,
      fill_column pad n (Some v :: repeat None k ++ Some w :: rest) =
      Some v :: repeat (Some v) (Nat.min k n) ++ repeat None (k - n) ++
      fill_column pad n (Some w :: rest)) /\
  (forall n xs, fill_column backfill n xs = rev (fill_column pad n (rev xs))) /\
  fill_gap (gap_factor (Some gap_series)) =
    (Ok tt, gap_factor (Some gap_filled)).
Proof.
  split; [|split; [|split]].
  - intros s df a b m Hk Hr Ha Hb Hm Hn.
    eexists. split; [apply (fill_gap_runs s df a b m); assumption|].
    simpl. split; [reflexivity|]. split; [|split; [|reflexivity]].
    + apply NoDup_list_prod; [|apply date_range_NoDup].
      apply sorted_NoDup, levels0_sorted.
    + intros e t. unfold from_product.
      now rewrite in_prod_iff, levels0_In, date_range_spec.
  - intros; apply pad_gap_capped.
  - reflexivity.
  - vm_compute. reflexivity.
Qed.

Lemma fill_gap_dense_first_capped_witness :
  exists df',
    fill_gap (gap_factor (Some gap_series)) =
      (Ok tt, set_result_df (gap_factor (Some gap_series)) (Some df')) /\
    columns df' =
      [("value", [Some (Num 1); Some (Num 1); Some (Num 1); None; Some (Num 5)])].
Proof.
  destruct (proj1 fill_gap_dense_first_capped
              (gap_factor (Some gap_series)) gap_series (day 0) (day 4) pad
              eq_refl eq_refl eq_refl eq_refl eq_refl)
    as (df' & Hrun & Hidx & _ & _ & Hcols).
  - vm_compute. discriminate.
  - exists df'. split; [exact Hrun|].
    rewrite Hcols, Hidx. vm_compute. reflexivity.
Defined.

(** ** The gap filler on a missing result frame *)

Lemma fill_gap_absent_raises (s : Factor) (a b : Timestamp) :
  keep_all_timestamp s = true ->
  start_timestamp s = Some a ->
  end_timestamp s = Some b ->
  result_df s = None ->
  fill_gap s = (Raise AttributeError, s).
Proof.
  intros Hk Ha Hb Hr. unfold fill_gap. now rewrite Hk, Ha, Hb, Hr.
Qed.

(** C2: called with all timestamps kept on a factor whose result frame
    is [None], [fill_gap] raises [AttributeError], and so does the whole
    cycle of a plain factor, which never sets a result frame; on an
    empty result frame that has a row label and no column it returns a
    frame of five rows. *)
Theorem fill_gap_on_absent_result :
  fill_gap (gap_factor None) = (Raise AttributeError, gap_factor None) /\
  fst (compute no_failure (gap_factor None)) = Raise AttributeError /\
  empty no_columns_df = true /\
  option_map index (result_df (snd (fill_gap (gap_factor (Some no_columns_df))))) =
    Some [("e1", day 0); ("e1", day 1); ("e1", day 2); ("e1", day 3); ("e1", day 4)].
Proof.
  repeat split; vm_compute; reflexivity.
Qed.

(** ** StateFactor *)

Lemma Factor_do_compute_result_df (s : Factor) :
  result_df (snd (Factor_do_compute s)) = result_df s /\
  states (snd (Factor_do_compute s)) = states s.
Proof.
  unfold Factor_do_compute, bind, transform_stage.
  destruct (df_is_not_null (pipe_df s) && nonempty (transformers s)).
  - rewrite for_transformers_chain.
    destruct (chain (transformers s) (pipe_df s)); simpl; auto.
    unfold accumulate_stage, assign; simpl. break_match; auto.
  - unfold accumulate_stage, assign; simpl. break_match; auto.
Qed.

(** C9, as stated, fails: after [do_compute] on a state factor with a raw
    frame of three rows, the result frame is still [None], whether the
    declared states are the class default or a list of two. *)
Lemma StateFactor_do_compute_leaves_result_absent :
  (fst (do_compute (state_factor StateFactor_states)) = Ok tt /\
   result_df (snd (do_compute (state_factor StateFactor_states))) = None /\
   ~ populated_with_states (snd (do_compute (state_factor StateFactor_states)))) /\
  (fst (do_compute (state_factor ["up"; "down"])) = Ok tt /\
   result_df (snd (do_compute (state_factor ["up"; "down"]))) = None /\
   ~ populated_with_states (snd (do_compute (state_factor ["up"; "down"])))).
Proof.
  split; (split; [reflexivity|]; split; [reflexivity|]);
    intros (df & Hdf & _); vm_compute in Hdf; discriminate.
Qed.

(** C9, amended: for a state factor [do_compute] is the one of the base
    class and leaves the result frame and the declared states as they
    were; the declared states are empty by default; the state lookup and
    the two summaries exist and return [None]. *)
Theorem StateFactor_inherits_do_compute (s : Factor) :
  cls s = CStateFactor ->
  do_compute s = Factor_do_compute s /\
  result_df (snd (do_compute s)) = result_df s /\
  states (snd (do_compute s)) = states s /\
  StateFactor_states = [] /\
  (forall timestamp entity_id, get_state s timestamp entity_id = None) /\
  get_short_state s = None /\
  get_long_state s = None.
Proof.
  intros Hc.
  assert (H : do_compute s = Factor_do_compute s)
    by (unfold do_compute; now rewrite Hc).
  rewrite H. destruct (Factor_do_compute_result_df s) as (Hr & Hs).
  repeat split; auto.
Qed.

Lemma StateFactor_inherits_do_compute_witness :
  result_df (snd (do_compute (state_factor ["up"; "down"]))) = None /\
  states (snd (do_compute (state_factor ["up"; "down"]))) = ["up"; "down"].
Proof.
  destruct (StateFactor_inherits_do_compute (state_factor ["up"; "down"]) eq_refl)
    as (_ & Hr & Hs & _).
  split; [exact Hr | exact Hs].
Defined.

(** ** Warm start *)

Lemma select_map_filter {A : Type} (f : A -> bool) (l : list A) :
  select (map f l) l = filter f l.
Proof.
  induction l as [|x r IH]; simpl; [reflexivity|].
  destruct (f x); now rewrite IH.
Qed.

Lemma count_entity_length (e : string) (idx : list Key) :
  count_entity e idx = List.length (of_entity e idx).
Proof.
  induction idx as [|k r IH]; simpl; [reflexivity|].
  destruct (String.eqb (fst k) e); simpl; now rewrite IH.
Qed.

Lemma lastn_cons_short {A : Type} (n : nat) (x : A) (l : list A) :
  (List.length l < n)%nat -> lastn n (x :: l) = x :: lastn n l.
Proof.
  intros H. unfold lastn; simpl List.length.
  replace (S (List.length l) - n)%nat with 0%nat by lia.
  replace (List.length l - n)%nat with 0%nat by lia.
  reflexivity.
Qed.

Lemma lastn_cons_full {A : Type} (n : nat) (x : A) (l : list A) :
  (n <= List.length l)%nat -> lastn n (x :: l) = lastn n l.
Proof.
  intros H. unfold lastn; simpl List.length.
  replace (S (List.length l) - n)%nat with (S (List.length l - n)) by lia.
  reflexivity.
Qed.

Lemma lastn_length {A : Type} (n : nat) (l : list A) :
  (List.length (lastn n l) <= n)%nat.
Proof. unfold lastn. rewrite length_skipn. lia. Qed.

(** The rows kept by the trailing mask are, entity by entity, the last
    [w] rows of the entity. *)
Lemma trailing_mask_lastn (w : nat) (e : string) (idx : list Key) :
  of_entity e (select (trailing_mask w idx) idx) = lastn w (of_entity e idx).
Proof.
  induction idx as [|k r IH]; simpl; [reflexivity|].
  destruct (String.eqb (fst k) e) eqn:He.
  - apply String.eqb_eq in He. subst e.
    rewrite count_entity_length.
    destruct (Nat.ltb_spec (List.length (of_entity (fst k) r)) w) as [Hlt|Hge].
    + simpl. rewrite String.eqb_refl, IH. now rewrite lastn_cons_short.
    + rewrite IH. now rewrite lastn_cons_full.
  - destruct (count_entity (fst k) r <? w)%nat; simpl; [rewrite He|]; apply IH.
Qed.

(** C8: with persistence on, the factor frame is seeded by the run mode:
    in a dry run with the rows of the stored table that are, for each
    entity, its last [valid_window] rows; otherwise with all the stored
    rows from [start_timestamp] on. Without persistence it is [None]. *)
Theorem warm_start_by_run_mode
    (c : FactorClass) (start_ts end_ts : option Timestamp) (window : Z)
    (keep_all : bool) (method : string) (eff : Z)
    (ts : list Transformer) (acc : option Accumulator) (persisted : DataFrame) :
  (exists mask,
      factor_df (Factor_init c start_ts end_ts window keep_all method eff ts acc
                   true true persisted) = Some (loc mask persisted) /\
      forall e,
        of_entity e (index (loc mask persisted)) =
          lastn (Z.to_nat window) (of_entity e (index persisted)) /\
        (List.length (of_entity e (index (loc mask persisted))) <= Z.to_nat window)%nat) /\
  (exists mask,
      factor_df (Factor_init c start_ts end_ts window keep_all method eff ts acc
                   true false persisted) = Some (loc mask persisted) /\
      index (loc mask persisted) = filter (from_start start_ts) (index persisted) /\
      forall k,
        In k (index (loc mask persisted)) <->
        In k (index persisted) /\
        match start_ts with Some a => a <= snd k | None => True end) /\
  (forall dry,
      factor_df (Factor_init c start_ts end_ts window keep_all method eff ts acc
                   false dry persisted) = None).
Proof.
  split; [|split].
  - exists (trailing_mask (Z.to_nat window) (index persisted)).
    split; [reflexivity|]. intros e. simpl.
    rewrite trailing_mask_lastn. split; [reflexivity | apply lastn_length].
  - exists (map (from_start start_ts) (index persisted)).
    split; [reflexivity|]. simpl. rewrite select_map_filter.
    split; [reflexivity|]. intros k. rewrite filter_In.
    unfold from_start. destruct start_ts as [a|]; [rewrite Z.leb_le|]; intuition.
  - intros dry. reflexivity.
Qed.

(** A stored table of three rows for [e1] and one for [e2], window two:
    a dry run loads the last two rows of [e1] and the row of [e2]; a full
    run from day one loads the two rows of [e1] from that day on. *)
Example warm_start_on_four_rows :
  let stored :=
    {| index := [("e1", day 0); ("e1", day 1); ("e2", day 0); ("e1", day 2)];
       columns := [("score", [Some (Num 1); Some (Num 2); Some (Num 3); Some (Num 4)])] |} in
  factor_df (Factor_init CFactor (Some (day 1)) None 2 false "ffill" 10 [] None
               true true stored) =
    Some {| index := [("e1", day 1); ("e2", day 0); ("e1", day 2)];
            columns := [("score", [Some (Num 2); Some (Num 3); Some (Num 4)])] |} /\
  factor_df (Factor_init CFactor (Some (day 1)) None 2 false "ffill" 10 [] None
               true false stored) =
    Some {| index := [("e1", day 1); ("e1", day 2)];
            columns := [("score", [Some (Num 2); Some (Num 4)])] |}.
Proof. split; vm_compute; reflexivity. Qed.

(** ** The constructor of ScoreFactor *)

Lemma bind_positional_names (sig : Signature) (args : list PyVal)
    (env : list (string * PyVal)) :
  bind_positional sig args = Ok env -> map fst env = map fst sig.
Proof.
  revert args env; induction sig as [|[n d] ps IH]; intros args env H.
  - destruct args; [injection H as <-; reflexivity | discriminate].
  - destruct args as [|a r]; simpl in H.
    + destruct d as [d|]; [|discriminate].
      destruct (bind_positional ps []) as [env'|] eqn:He; [|discriminate].
      injection H as <-. simpl. f_equal. now apply (IH []).
    + assert (H' : match bind_positional ps r with
                     | Ok env' => Ok ((n, a) :: env')
                     | Raise e => Raise e
                     end = Ok env) by (destruct d; exact H).
      destruct (bind_positional ps r) as [env'|] eqn:He; [|discriminate].
      injection H' as <-. simpl. f_equal. now apply (IH r).
Qed.

(** C3: whatever [ScoreFactor.__init__] is called with, the base
    constructor receives the arguments after [auto_load] one slot early:
    its [valid_window] is the [keep_all_timestamp] passed,
    [keep_all_timestamp] the [fill_method], [fill_method] the
    [effective_number], [effective_number] the [transformers],
    [transformers] the [need_persist], [accumulator] the [dry_run], and
    its [need_persist] and [dry_run] are the defaults [True] and
    [False]; the parameters up to [auto_load] arrive unchanged. *)
Theorem ScoreFactor_init_shifts_arguments
    (args : list PyVal) (env : list (string * PyVal)) :
  bind_positional ScoreFactor_params args = Ok env ->
  exists base,
    ScoreFactor_init args = Ok base /\
    lookup "valid_window" base = lookup "keep_all_timestamp" env /\
    lookup "keep_all_timestamp" base = lookup "fill_method" env /\
    lookup "fill_method" base = lookup "effective_number" env /\
    lookup "effective_number" base = lookup "transformers" env /\
    lookup "transformers" base = lookup "need_persist" env /\
    lookup "accumulator" base = lookup "dry_run" env /\
    lookup "need_persist" base = Some (PyBool true) /\
    lookup "dry_run" base = Some (PyBool false) /\
    forall n, In n (map fst reader_params) -> lookup n base = lookup n env.
Proof.
  intros H. unfold ScoreFactor_init. rewrite H.
  apply bind_positional_names in H. simpl in H.
  do 24 (destruct env as [|[? ?] env]; [discriminate|];
         simpl in H; injection H as -> H).
  destruct env; [|discriminate].
  eexists. split; [vm_compute; reflexivity|].
  repeat (split; [reflexivity|]).
  intros n Hin. simpl in Hin.
  repeat (destruct Hin as [<-|Hin]; [reflexivity|]). contradiction.
Qed.

Lemma ScoreFactor_init_shifts_arguments_witness :
  exists env base,
    bind_positional ScoreFactor_params [PyObj "Stock1dKdata"] = Ok env /\
    ScoreFactor_init [PyObj "Stock1dKdata"] = Ok base /\
    lookup "valid_window" base = Some (PyBool false) /\
    lookup "keep_all_timestamp" base = Some (PyStr "ffill") /\
    lookup "fill_method" base = Some (PyInt 10) /\
    lookup "effective_number" base = Some (PyList []) /\
    lookup "transformers" base = Some (PyBool true) /\
    lookup "accumulator" base = Some (PyBool true) /\
    lookup "need_persist" base = Some (PyBool true) /\
    lookup "dry_run" base = Some (PyBool false).
Proof.
  eexists.
  destruct (ScoreFactor_init_shifts_arguments [PyObj "Stock1dKdata"] _ eq_refl)
    as (base & Hb & H1 & H2 & H3 & H4 & H5 & H6 & H7 & H8 & _).
  exists base. repeat split; assumption.
Defined.

(** * Further properties of the pipeline *)

(** ** What a cycle never touches *)

Lemma transform_stage_frame (s : Factor) :
  frames_erased (snd (transform_stage s)) = frames_erased s /\
  df_to_db_calls (snd (transform_stage s)) = df_to_db_calls s /\
  result_df (snd (transform_stage s)) = result_df s.
Proof.
  unfold transform_stage.
  destruct (df_is_not_null (pipe_df s) && nonempty (transformers s)); simpl; auto.
  rewrite for_transformers_chain.
  destruct (chain (transformers s) (pipe_df s)); simpl; auto.
Qed.

Lemma accumulate_stage_frame (s : Factor) :
  frames_erased (snd (accumulate_stage s)) = frames_erased s /\
  df_to_db_calls (snd (accumulate_stage s)) = df_to_db_calls s /\
  result_df (snd (accumulate_stage s)) = result_df s.
Proof.
  unfold accumulate_stage, assign. break_match; auto.
Qed.

Lemma Factor_do_compute_frame (s : Factor) :
  frames_erased (snd (Factor_do_compute s)) = frames_erased s /\
  df_to_db_calls (snd (Factor_do_compute s)) = df_to_db_calls s /\
  result_df (snd (Factor_do_compute s)) = result_df s.
Proof.
  unfold Factor_do_compute, bind.
  destruct (transform_stage_frame s) as (H1 & H2 & H3).
  destruct (transform_stage s) as [[[]|e] s1]; simpl in *; auto.
  destruct (accumulate_stage_frame s1) as (H1' & H2' & H3').
  repeat split; congruence.
Qed.

Lemma do_compute_frame (s : Factor) :
  frames_erased (snd (do_compute s)) = frames_erased s /\
  df_to_db_calls (snd (do_compute s)) = df_to_db_calls s.
Proof.
  destruct (Factor_do_compute_frame s) as (H1 & H2 & _).
  unfold do_compute. destruct (cls s); auto.
  unfold ScoreFactor_do_compute, bind.
  destruct (Factor_do_compute s) as [[[]|e] s1]; simpl in *; auto.
  unfold assign. break_match; simpl; auto.
Qed.

Lemma fill_gap_frame (s : Factor) :
  frames_erased (snd (fill_gap s)) = frames_erased s /\
  df_to_db_calls (snd (fill_gap s)) = df_to_db_calls s /\
  factor_df (snd (fill_gap s)) = factor_df s /\
  pipe_df (snd (fill_gap s)) = pipe_df s.
Proof.
  unfold fill_gap. break_match; auto.
Qed.

Lemma frames_erased_need_persist (s s' : Factor) :
  frames_erased s' = frames_erased s -> need_persist s' = need_persist s.
Proof. intros H. apply (f_equal need_persist) in H. exact H. Qed.

(** X1: a cycle leaves the raw frame and the whole configuration of the
    factor as they were, whether it returns or raises. *)
Theorem compute_keeps_configuration (env : Frame -> option exn) (s : Factor) :
  frames_erased (snd (compute env s)) = frames_erased s.
Proof.
  unfold compute, bind, pre_compute.
  set (s0 := set_pipe_df s (data_df s)).
  change (frames_erased s) with (frames_erased s0).
  destruct (do_compute_frame s0) as (H1 & _).
  destruct (do_compute s0) as [[[]|e] s1]; simpl in *; auto.
  unfold after_compute, bind.
  destruct (fill_gap_frame s1) as (H2 & _).
  destruct (fill_gap s1) as [[[]|e] s2]; simpl in *; [|congruence].
  unfold persist_result. break_match; simpl; rewrite <- H1, <- H2; reflexivity.
Qed.

(** X2: a cycle calls the persistence sink at most once, with the
    factor frame the object holds at the end of the cycle; never when
    persistence is off, and always when it is on and the cycle
    returns. *)
Theorem compute_persists_at_most_once (env : Frame -> option exn) (s : Factor) :
  (df_to_db_calls (snd (compute env s)) = df_to_db_calls s \/
   df_to_db_calls (snd (compute env s)) =
     df_to_db_calls s ++ [factor_df (snd (compute env s))]) /\
  (need_persist s = false ->
   df_to_db_calls (snd (compute env s)) = df_to_db_calls s) /\
  (need_persist s = true -> fst (compute env s) = Ok tt ->
   df_to_db_calls (snd (compute env s)) =
     df_to_db_calls s ++ [factor_df (snd (compute env s))]).
Proof.
  unfold compute, bind, pre_compute.
  set (s0 := set_pipe_df s (data_df s)).
  destruct (do_compute_frame s0) as (H1 & C1).
  destruct (do_compute s0) as [[[]|e] s1]; simpl in *.
  - unfold after_compute, bind.
    destruct (fill_gap_frame s1) as (H2 & C2 & F2 & _).
    destruct (fill_gap s1) as [[[]|e] s2]; simpl in *.
    + assert (Hn : need_persist s2 = need_persist s).
      { rewrite (frames_erased_need_persist _ _ H2).
        exact (frames_erased_need_persist _ _ H1). }
      rewrite Hn. destruct (need_persist s).
      * unfold persist_result.
        destruct (env (factor_df s2)); simpl; rewrite C2, C1;
          (split; [right; reflexivity|]); split; auto; discriminate.
      * simpl. rewrite C2, C1. split; [left; reflexivity|].
        split; auto; discriminate.
    + rewrite C2, C1. split; [left; reflexivity|]. split; auto; discriminate.
  - rewrite C1. split; [left; reflexivity|]. split; auto; discriminate.
Qed.

Lemma compute_persists_at_most_once_witness :
  df_to_db_calls (snd (compute no_failure
     (example_factor CFactor [add_one] None (Some raw_df) None None))) =
  [factor_df (snd (compute no_failure
     (example_factor CFactor [add_one] None (Some raw_df) None None)))].
Proof.
  apply (proj2 (proj2 (compute_persists_at_most_once no_failure
     (example_factor CFactor [add_one] None (Some raw_df) None None))));
    reflexivity.
Defined.

(** ** A whole cycle without gap filling *)

Lemma transform_stage_transformed (s : Factor) (d : Frame) :
  transformed s = Ok d ->
  transform_stage (set_pipe_df s (data_df s)) = (Ok tt, set_pipe_df s d).
Proof.
  unfold transformed, transform_stage; simpl.
  destruct (df_is_not_null (data_df s) && nonempty (transformers s)).
  - intros Hc. rewrite for_transformers_chain; simpl. now rewrite Hc.
  - intros H. injection H as <-. reflexivity.
Qed.

Lemma accumulate_stage_next_factor (s : Factor) (d f : Frame) :
  next_factor s d = Ok f ->
  accumulate_stage (set_pipe_df s d) =
  (Ok tt, set_factor_df (set_pipe_df s d) f).
Proof.
  unfold next_factor, accumulate_stage, assign; simpl.
  destruct (df_is_not_null d); [destruct (accumulator s)|].
  - intros ->. reflexivity.
  - intros H; injection H as <-; reflexivity.
  - intros H; injection H as <-; reflexivity.
Qed.

Lemma do_compute_plain (s : Factor) (d f : Frame) :
  cls s <> CScoreFactor ->
  transformed s = Ok d ->
  next_factor s d = Ok f ->
  do_compute (set_pipe_df s (data_df s)) =
  (Ok tt, set_factor_df (set_pipe_df s d) f).
Proof.
  intros Hc Ht Hf.
  assert (H : Factor_do_compute (set_pipe_df s (data_df s)) =
              (Ok tt, set_factor_df (set_pipe_df s d) f)).
  { unfold Factor_do_compute, bind.
    rewrite (transform_stage_transformed s d Ht).
    exact (accumulate_stage_next_factor s d f Hf). }
  unfold do_compute; simpl. destruct (cls s); auto. contradiction.
Qed.

Lemma after_compute_no_gap (env : Frame -> option exn) (s : Factor) :
  keep_all_timestamp s = false ->
  after_compute env s =
  if need_persist s
  then (match env (factor_df s) with Some e => Raise e | None => Ok tt end,
        log_df_to_db s (factor_df s))
  else (Ok tt, s).
Proof.
  intros Hk. unfold after_compute, bind, fill_gap. rewrite Hk.
  destruct (need_persist s); [|reflexivity].
  unfold persist_result. destruct (env (factor_df s)); reflexivity.
Qed.

Lemma compute_plain_state (env : Frame -> option exn) (s : Factor) (d f : Frame) :
  cls s <> CScoreFactor ->
  keep_all_timestamp s = false ->
  transformed s = Ok d ->
  next_factor s d = Ok f ->
  snd (compute env s) =
  if need_persist s
  then log_df_to_db (set_factor_df (set_pipe_df s d) f) f
  else set_factor_df (set_pipe_df s d) f.
Proof.
  intros Hc Hk Ht Hf. unfold compute, bind, pre_compute.
  rewrite (do_compute_plain s d f Hc Ht Hf).
  rewrite after_compute_no_gap by exact Hk. simpl.
  destruct (need_persist s); reflexivity.
Qed.

(** X3: for a factor that is not a score factor and fills no gap, a
    cycle whose transformers return [d] and whose accumulator stage
    returns [f] (the accumulator applied to [d] and the old factor
    frame, or [d] itself without one) leaves [pipe_df = d] and
    [factor_df = f]; with persistence on, [f] is handed to the sink
    once, and an exception of the sink is raised by [compute] with
    [factor_df] already replaced. *)
Theorem compute_cycle (env : Frame -> option exn) (s : Factor) (d f : Frame) :
  cls s <> CScoreFactor ->
  keep_all_timestamp s = false ->
  transformed s = Ok d ->
  next_factor s d = Ok f ->
  compute env s =
  if need_persist s
  then (match env f with Some e => Raise e | None => Ok tt end,
        log_df_to_db (set_factor_df (set_pipe_df s d) f) f)
  else (Ok tt, set_factor_df (set_pipe_df s d) f).
Proof.
  intros Hc Hk Ht Hf. unfold compute, bind, pre_compute.
  rewrite (do_compute_plain s d f Hc Ht Hf).
  rewrite after_compute_no_gap by exact Hk. simpl.
  destruct (need_persist s); [|reflexivity].
  destruct (env f); reflexivity.
Qed.

Lemma compute_cycle_witness :
  let s := example_factor CFactor [add_one] (Some keep_old)
             (Some raw_df) (Some old_factor_df) None in
  exists d,
    compute sink_down s =
    (Raise (CollaboratorError "database"),
     log_df_to_db (set_factor_df (set_pipe_df s d) (Some old_factor_df))
                  (Some old_factor_df)).
Proof.
  intros s. eexists.
  apply (compute_cycle sink_down s _ (Some old_factor_df));
    [discriminate | reflexivity | reflexivity | reflexivity].
Defined.

(** X4: when the accumulator raises, [compute] raises the same
    exception; the working frame is the one the transformers returned,
    the factor frame is the old one and the sink has not been called. *)
Theorem compute_aborts_when_accumulator_raises
    (env : Frame -> option exn) (s : Factor) (d : Frame)
    (acc : Accumulator) (e : exn) :
  transformed s = Ok d ->
  df_is_not_null d = true ->
  accumulator s = Some acc ->
  acc d (factor_df s) = Raise e ->
  compute env s = (Raise e, set_pipe_df s d) /\
  factor_df (set_pipe_df s d) = factor_df s /\
  df_to_db_calls (set_pipe_df s d) = df_to_db_calls s.
Proof.
  intros Ht Hd Ha He. split; [|split; reflexivity].
  assert (H : Factor_do_compute (set_pipe_df s (data_df s)) =
              (Raise e, set_pipe_df s d)).
  { unfold Factor_do_compute, bind.
    rewrite (transform_stage_transformed s d Ht).
    unfold accumulate_stage, assign; simpl. now rewrite Hd, Ha, He. }
  unfold compute, bind, pre_compute, do_compute; simpl.
  destruct (cls s); unfold ScoreFactor_do_compute, bind; rewrite H; reflexivity.
Qed.

Lemma compute_aborts_when_accumulator_raises_witness :
  let s := example_factor CFactor [add_one] (Some failing_acc)
             (Some raw_df) (Some old_factor_df) None in
  exists d,
    compute no_failure s = (Raise (CollaboratorError "accumulate"), set_pipe_df s d) /\
    factor_df (set_pipe_df s d) = Some old_factor_df /\
    df_to_db_calls (set_pipe_df s d) = [].
Proof.
  intros s. eexists.
  apply (compute_aborts_when_accumulator_raises no_failure s _ failing_acc
           (CollaboratorError "accumulate")); reflexivity.
Defined.

Lemma last_good_prefix (ts : list Transformer) (df : Frame) (e : exn) :
  chain ts df = Raise e ->
  exists ts1 t ts2,
    ts = ts1 ++ t :: ts2 /\
    chain ts1 df = Ok (last_good ts df) /\
    t (last_good ts df) = Raise e.
Proof.
  revert df; induction ts as [|t r IH]; intros df H.
  - discriminate.
  - rewrite chain_cons in H. simpl. destruct (t df) as [d|e'] eqn:Ht.
    + destruct (IH d H) as (ts1 & u & ts2 & -> & Hc & Hu).
      exists (t :: ts1), u, ts2. split; [reflexivity|].
      split; [now rewrite chain_cons, Ht | exact Hu].
    + injection H as ->. exists [], t, r. repeat split. exact Ht.
Qed.

(** X5: when the transformers raise, the working frame the cycle leaves
    is the one the transformers before the failing one produced, and
    the failing transformer raised on exactly that frame. *)
Theorem compute_leaves_last_good_pipe
    (env : Frame -> option exn) (s : Factor) (e : exn) :
  df_is_not_null (data_df s) = true ->
  chain (transformers s) (data_df s) = Raise e ->
  exists ts1 t ts2,
    transformers s = ts1 ++ t :: ts2 /\
    chain ts1 (data_df s) = Ok (pipe_df (snd (compute env s))) /\
    t (pipe_df (snd (compute env s))) = Raise e.
Proof.
  intros Hnn Hc.
  assert (Hp : pipe_df (snd (compute env s)) =
               last_good (transformers s) (data_df s)).
  { assert (Ht : transform_stage (set_pipe_df s (data_df s)) =
                 (Raise e, set_pipe_df s (last_good (transformers s) (data_df s)))).
    { unfold transform_stage. simpl. rewrite Hnn.
      rewrite (chain_raise_nonempty _ _ _ Hc). simpl.
      rewrite for_transformers_chain. simpl. rewrite Hc. reflexivity. }
    unfold compute, bind, pre_compute, do_compute. simpl.
    destruct (cls s); unfold ScoreFactor_do_compute, Factor_do_compute, bind;
      rewrite Ht; reflexivity. }
  rewrite Hp. now apply last_good_prefix.
Qed.

Lemma compute_leaves_last_good_pipe_witness :
  let s := example_factor CFactor [add_one; failing; double] None
             (Some raw_df) (Some old_factor_df) None in
  exists ts1 t ts2,
    [add_one; failing; double] = ts1 ++ t :: ts2 /\
    chain ts1 (Some raw_df) = Ok (pipe_df (snd (compute no_failure s))) /\
    t (pipe_df (snd (compute no_failure s))) = Raise (CollaboratorError "transform").
Proof.
  apply (compute_leaves_last_good_pipe no_failure
           (example_factor CFactor [add_one; failing; double] None
              (Some raw_df) (Some old_factor_df) None)
           (CollaboratorError "transform")); reflexivity.
Defined.

(** X6: on an empty or absent raw frame a cycle calls no transformer,
    accumulator or scorer: the raw frame becomes the working frame and
    the factor frame, whatever the factor frame held, and with
    persistence on it is what the sink receives. *)
Theorem compute_on_null_data (env : Frame -> option exn) (s : Factor) :
  df_is_not_null (data_df s) = false ->
  keep_all_timestamp s = false ->
  compute env s =
  if need_persist s
  then (match env (data_df s) with Some e => Raise e | None => Ok tt end,
        log_df_to_db (set_factor_df (set_pipe_df s (data_df s)) (data_df s))
                     (data_df s))
  else (Ok tt, set_factor_df (set_pipe_df s (data_df s)) (data_df s)).
Proof.
  intros Hn Hk.
  assert (H : Factor_do_compute (set_pipe_df s (data_df s)) =
              (Ok tt, set_factor_df (set_pipe_df s (data_df s)) (data_df s))).
  { unfold Factor_do_compute, bind, transform_stage; simpl. rewrite Hn; simpl.
    unfold accumulate_stage; simpl. now rewrite Hn. }
  assert (Hd : do_compute (set_pipe_df s (data_df s)) =
               (Ok tt, set_factor_df (set_pipe_df s (data_df s)) (data_df s))).
  { unfold do_compute; simpl. destruct (cls s); auto.
    unfold ScoreFactor_do_compute, bind. rewrite H. simpl. now rewrite Hn. }
  unfold compute, bind, pre_compute. rewrite Hd.
  unfold after_compute, bind, fill_gap; simpl. rewrite Hk.
  change (need_persist (set_factor_df _ _)) with (need_persist s).
  destruct (need_persist s); [|reflexivity].
  unfold persist_result; simpl. destruct (env (data_df s)); reflexivity.
Qed.

Lemma compute_on_null_data_witness :
  let s := example_factor CFactor [failing] (Some failing_acc) None
             (Some old_factor_df) None in
  compute no_failure s =
  (Ok tt, log_df_to_db (set_factor_df (set_pipe_df s None) None) None).
Proof.
  intros s.
  apply (compute_on_null_data no_failure s); reflexivity.
Defined.

(** ** The scoring stage of a score factor *)

Lemma ScoreFactor_base_stage (s : Factor) (d f : Frame) :
  transformed s = Ok d ->
  next_factor s d = Ok f ->
  Factor_do_compute (set_pipe_df s (data_df s)) =
  (Ok tt, set_factor_df (set_pipe_df s d) f).
Proof.
  intros Ht Hf. unfold Factor_do_compute, bind.
  rewrite (transform_stage_transformed s d Ht).
  exact (accumulate_stage_next_factor s d f Hf).
Qed.

(** X7: in a cycle of a score factor without gap filling, the scorer
    runs after the base stages, on the raw frame, and its value becomes
    the result frame; it is skipped, and the result frame left alone,
    when the working frame is empty or absent after the transformers or
    when no scorer is set. The factor frame is persisted as for any
    factor. *)
Theorem ScoreFactor_cycle (env : Frame -> option exn) (s : Factor) (d f : Frame) :
  cls s = CScoreFactor ->
  keep_all_timestamp s = false ->
  transformed s = Ok d ->
  next_factor s d = Ok f ->
  (forall sc r,
      df_is_not_null d = true -> scorer s = Some sc -> sc (data_df s) = Ok r ->
      compute env s =
      if need_persist s
      then (match env f with Some e => Raise e | None => Ok tt end,
            log_df_to_db (set_result_df (set_factor_df (set_pipe_df s d) f) r) f)
      else (Ok tt, set_result_df (set_factor_df (set_pipe_df s d) f) r)) /\
  (df_is_not_null d = false \/ scorer s = None ->
   compute env s =
   if need_persist s
   then (match env f with Some e => Raise e | None => Ok tt end,
         log_df_to_db (set_factor_df (set_pipe_df s d) f) f)
   else (Ok tt, set_factor_df (set_pipe_df s d) f)).
Proof.
  intros Hc Hk Ht Hf.
  pose proof (ScoreFactor_base_stage s d f Ht Hf) as Hb.
  split.
  - intros sc r Hd Hs Hr.
    assert (Hdo : do_compute (set_pipe_df s (data_df s)) =
                  (Ok tt, set_result_df (set_factor_df (set_pipe_df s d) f) r)).
    { unfold do_compute; simpl. rewrite Hc.
      unfold ScoreFactor_do_compute, bind. rewrite Hb. simpl.
      rewrite Hd, Hs. unfold assign. now rewrite Hr. }
    unfold compute, bind, pre_compute. rewrite Hdo.
    unfold after_compute, bind, fill_gap; simpl. rewrite Hk.
    change (need_persist (set_result_df _ _)) with (need_persist s).
    destruct (need_persist s); [|reflexivity].
    unfold persist_result; simpl. destruct (env f); reflexivity.
  - intros Hskip.
    assert (Hdo : do_compute (set_pipe_df s (data_df s)) =
                  (Ok tt, set_factor_df (set_pipe_df s d) f)).
    { unfold do_compute; simpl. rewrite Hc.
      unfold ScoreFactor_do_compute, bind. rewrite Hb. simpl.
      destruct Hskip as [Hd|Hs]; [now rewrite Hd|].
      rewrite Hs. now destruct (df_is_not_null d). }
    unfold compute, bind, pre_compute. rewrite Hdo.
    unfold after_compute, bind, fill_gap; simpl. rewrite Hk.
    change (need_persist (set_factor_df _ _)) with (need_persist s).
    destruct (need_persist s); [|reflexivity].
    unfold persist_result; simpl. destruct (env f); reflexivity.
Qed.

Lemma ScoreFactor_cycle_witness :
  let s := score_factor [add_one] (Some double) in
  exists d r,
    double (Some raw_df) = Ok r /\
    compute no_failure s =
    (Ok tt, log_df_to_db (set_result_df (set_factor_df (set_pipe_df s d) d) r) d).
Proof.
  intros s. eexists. eexists. split; [reflexivity|].
  apply (proj1 (ScoreFactor_cycle no_failure s _ _
                  eq_refl eq_refl eq_refl eq_refl) double); reflexivity.
Defined.

(** X8: when the scorer raises, [compute] raises the same exception
    after the factor frame has been replaced by the new one; the result
    frame is the old one and the sink is not called. *)
Theorem compute_aborts_when_scorer_raises
    (env : Frame -> option exn) (s : Factor) (d f : Frame) (sc : Scorer) (e : exn) :
  cls s = CScoreFactor ->
  transformed s = Ok d ->
  next_factor s d = Ok f ->
  df_is_not_null d = true ->
  scorer s = Some sc ->
  sc (data_df s) = Raise e ->
  compute env s = (Raise e, set_factor_df (set_pipe_df s d) f) /\
  factor_df (snd (compute env s)) = f /\
  result_df (snd (compute env s)) = result_df s /\
  df_to_db_calls (snd (compute env s)) = df_to_db_calls s.
Proof.
  intros Hc Ht Hf Hd Hs He.
  pose proof (ScoreFactor_base_stage s d f Ht Hf) as Hb.
  assert (H : compute env s = (Raise e, set_factor_df (set_pipe_df s d) f)).
  { unfold compute, bind, pre_compute, do_compute; simpl. rewrite Hc.
    unfold ScoreFactor_do_compute, bind. rewrite Hb. simpl.
    rewrite Hd, Hs. unfold assign. now rewrite He. }
  rewrite H. repeat split.
Qed.

Lemma compute_aborts_when_scorer_raises_witness :
  let s := score_factor [add_one] (Some failing_scorer) in
  exists d,
    compute no_failure s =
      (Raise (CollaboratorError "score"), set_factor_df (set_pipe_df s d) d) /\
    factor_df (snd (compute no_failure s)) = d /\
    d <> Some old_factor_df /\
    df_to_db_calls (snd (compute no_failure s)) = [].
Proof.
  intros s. eexists.
  destruct (compute_aborts_when_scorer_raises no_failure s _ _ failing_scorer
              (CollaboratorError "score")
              eq_refl eq_refl eq_refl eq_refl eq_refl eq_refl)
    as (H1 & H2 & _ & H4).
  split; [exact H1|]. split; [exact H2|]. split; [discriminate | exact H4].
Defined.

(** ** When the gap filler returns *)






(** ** The frame the gap filler returns *)

Lemma pad_from_length (n : nat) (last : Cell) (c : nat) (xs : list Cell) :
  List.length (pad_from n last c xs) = List.length xs.
Proof.
  revert last c; induction xs as [|[v|] r IH]; intros last c; simpl; auto.
Qed.

Lemma fill_column_length (m : FillMethod) (n : nat) (xs : list Cell) :
  List.length (fill_column m n xs) = List.length xs.
Proof.
  destruct m; simpl.
  - apply pad_from_length.
  - now rewrite length_rev, pad_from_length, length_rev.
Qed.

(** X11: the frame [fill_gap] returns has the columns of the old frame,
    under the same names and in the same order, each with one cell per
    label of the new index, and the new index has one label for each
    entity and each day. *)
Theorem fill_gap_shape
    (s : Factor) (df : DataFrame) (a b : Timestamp) (m : FillMethod) :
  keep_all_timestamp s = true ->
  result_df s = Some df ->
  start_timestamp s = Some a ->
  end_timestamp s = Some b ->
  clean_fill_method (fill_method s) = Some m ->
  1 <= effective_number s ->
  exists df',
    fill_gap s = (Ok tt, set_result_df s (Some df')) /\
    map fst (columns df') = map fst (columns df) /\
    (forall c, In c (columns df') ->
               List.length (snd c) = List.length (index df')) /\
    List.length (index df') =
      (List.length (levels0 (index df)) * List.length (date_range a b))%nat.
Proof.
  intros Hk Hr Ha Hb Hm Hn.
  eexists. split; [apply (fill_gap_runs s df a b m); assumption|].
  simpl. split; [|split].
  - rewrite map_map. reflexivity.
  - intros c Hc. apply in_map_iff in Hc. destruct Hc as (c0 & <- & _).
    simpl. now rewrite fill_column_length, length_map.
  - apply length_prod.
Qed.

Lemma fill_gap_shape_witness :
  exists df',
    fill_gap (gap_factor (Some no_columns_df)) =
      (Ok tt, set_result_df (gap_factor (Some no_columns_df)) (Some df')) /\
    List.length (index df') = 5%nat.
Proof.
  destruct (fill_gap_shape (gap_factor (Some no_columns_df)) no_columns_df
              (day 0) (day 4) pad eq_refl eq_refl eq_refl eq_refl eq_refl)
    as (df' & Hrun & _ & _ & Hlen).
  - vm_compute. discriminate.
  - exists df'. split; [exact Hrun | exact Hlen].
Defined.

(** ** What the fill keeps *)

Lemma pad_from_keeps (n : nat) (last : Cell) (c : nat) (xs : list Cell) :
  keeps_valid xs (pad_from n last c xs).
Proof.
  unfold keeps_valid.
  revert last c; induction xs as [|[v|] r IH]; intros last c; simpl;
    constructor; auto.
  discriminate.
Qed.

Lemma keeps_valid_app (xs ys xs' ys' : list Cell) :
  keeps_valid xs ys -> keeps_valid xs' ys' -> keeps_valid (xs ++ xs') (ys ++ ys').
Proof.
  unfold keeps_valid. intros H H'. induction H; simpl; auto.
Qed.

Lemma keeps_valid_rev (xs ys : list Cell) :
  keeps_valid xs ys -> keeps_valid (rev xs) (rev ys).
Proof.
  intros H. induction H as [|x y xs ys Hxy H IH]; simpl.
  - constructor.
  - apply keeps_valid_app; [exact IH|]. constructor; [exact Hxy | constructor].
Qed.

Lemma fill_column_keeps (m : FillMethod) (n : nat) (xs : list Cell) :
  keeps_valid xs (fill_column m n xs).
Proof.
  destruct m; simpl.
  - apply pad_from_keeps.
  - rewrite <- (rev_involutive xs) at 1.
    apply keeps_valid_rev, pad_from_keeps.
Qed.

Lemma pad_from_source (n : nat) (v : Scalar) (xs : list Cell) (last : Cell) (c : nat) :
  In (Some v) (pad_from n last c xs) -> last = Some v \/ In (Some v) xs.
Proof.
  revert last c; induction xs as [|[w|] r IH]; intros last c; simpl.
  - tauto.
  - intros [H|H]; [right; left; exact H|].
    apply IH in H. destruct H as [H|H]; [right; left; exact H | right; right; exact H].
  - intros [H|H].
    + destruct (c <? n)%nat; [left; exact H | discriminate].
    + apply IH in H. destruct H as [H|H]; [left; exact H | right; right; exact H].
Qed.

Lemma fill_column_source (m : FillMethod) (n : nat) (v : Scalar) (xs : list Cell) :
  In (Some v) (fill_column m n xs) -> In (Some v) xs.
Proof.
  destruct m; simpl.
  - intros H. apply pad_from_source in H. destruct H; [discriminate | assumption].
  - rewrite <- in_rev. intros H. apply pad_from_source in H.
    destruct H; [discriminate|]. now apply in_rev.
Qed.

Lemma first_value_In (idx : list Key) (col : list Cell) (k : Key) (v : Scalar) :
  first_value idx col k = Some v -> In (Some v) col.
Proof.
  revert col; induction idx as [|k0 r IH]; intros [|c cr]; simpl; try discriminate.
  destruct (key_eqb k k0); [intros ->; auto | intros H; right; eauto].
Qed.

(** X12: the fill never overwrites and never invents: in the frame
    [fill_gap] returns, a label whose first row had a value in a column
    still has that value there, and every value of a column occurs in
    the same column of the old frame. *)
Theorem fill_gap_keeps_valid_cells
    (s : Factor) (df : DataFrame) (a b : Timestamp) (m : FillMethod) :
  keep_all_timestamp s = true ->
  result_df s = Some df ->
  start_timestamp s = Some a ->
  end_timestamp s = Some b ->
  clean_fill_method (fill_method s) = Some m ->
  1 <= effective_number s ->
  exists df',
    fill_gap s = (Ok tt, set_result_df s (Some df')) /\
    Forall2 (fun c c' =>
               fst c' = fst c /\
               keeps_valid (map (first_value (index df) (snd c)) (index df')) (snd c') /\
               forall v, In (Some v) (snd c') -> In (Some v) (snd c))
            (columns df) (columns df').
Proof.
  intros Hk Hr Ha Hb Hm Hn.
  eexists. split; [apply (fill_gap_runs s df a b m); assumption|].
  simpl. induction (columns df) as [|c r IH]; simpl; constructor; auto.
  simpl. split; [reflexivity|]. split.
  - apply fill_column_keeps.
  - intros v Hv. apply fill_column_source in Hv.
    apply in_map_iff in Hv. destruct Hv as (k & Hk' & _).
    now apply first_value_In in Hk'.
Qed.

Lemma fill_gap_keeps_valid_cells_witness :
  exists df',
    fill_gap (gap_factor (Some gap_series)) =
      (Ok tt, set_result_df (gap_factor (Some gap_series)) (Some df')) /\
    Forall2 (fun c c' =>
               fst c' = fst c /\
               keeps_valid (map (first_value (index gap_series) (snd c)) (index df')) (snd c') /\
               forall v, In (Some v) (snd c') -> In (Some v) (snd c))
            (columns gap_series) (columns df').
Proof.
  apply (fill_gap_keeps_valid_cells (gap_factor (Some gap_series)) gap_series
           (day 0) (day 4) pad); try reflexivity.
  vm_compute. discriminate.
Defined.

(** ** The gap filler run again *)

Lemma pad_from_again (n m : nat) (xs : list Cell) (last : Cell) (c c2 : nat) :
  last = None \/ c2 = (c - n)%nat ->
  pad_from m last c2 (pad_from n last c xs) = pad_from (n + m) last c xs.
Proof.
  revert last c c2; induction xs as [|[v|] r IH]; intros last c c2 H; simpl.
  - reflexivity.
  - f_equal. apply IH. right. reflexivity.
  - destruct H as [-> | ->].
    + destruct (c <? n)%nat, (c2 <? m)%nat, (c <? n + m)%nat; simpl;
        f_equal; apply IH; left; reflexivity.
    + destruct last as [v|].
      * destruct (Nat.ltb_spec c n) as [Hlt|Hge]; simpl.
        -- destruct (Nat.ltb_spec c (n + m)) as [_|Hge']; [|lia].
           f_equal. apply IH. right. lia.
        -- destruct (Nat.ltb_spec (c - n) m) as [Hlt'|Hge'];
             destruct (Nat.ltb_spec c (n + m)) as [Hlt''|Hge'']; try lia;
             f_equal; apply IH; right; lia.
      * destruct (c <? n)%nat, (c - n <? m)%nat, (c <? n + m)%nat; simpl;
          f_equal; apply IH; left; reflexivity.
Qed.

(** Filling a filled column again fills as far as one fill with the sum
    of the two caps. *)
Lemma fill_column_again (meth : FillMethod) (n m : nat) (xs : list Cell) :
  fill_column meth m (fill_column meth n xs) = fill_column meth (n + m) xs.
Proof.
  destruct meth; simpl.
  - apply pad_from_again. left. reflexivity.
  - rewrite rev_involutive. f_equal. apply pad_from_again. left. reflexivity.
Qed.

Lemma compare_refl_Eq (x : string) : String_as_OT.compare x x = Eq.
Proof.
  destruct (String_as_OT.compare_spec x x) as [_|H|H]; auto;
    now apply (irreflexivity (R := String_as_OT.lt)) in H.
Qed.

Lemma insert_level_below (x : string) (l : list string) :
  Forall (String_as_OT.lt x) l -> insert_level x l = x :: l.
Proof.
  intros H. destruct H as [|y r Hy Hr]; simpl; [reflexivity|].
  unfold String_as_OT.lt in Hy. now rewrite Hy.
Qed.

Lemma insert_level_head (x : string) (l : list string) :
  insert_level x (x :: l) = x :: l.
Proof. simpl. now rewrite compare_refl_Eq. Qed.

Lemma levels0_app (i j : list Key) :
  levels0 (i ++ j) = fold_right (fun k acc => insert_level (fst k) acc) (levels0 j) i.
Proof. unfold levels0. apply fold_right_app. Qed.

Lemma levels0_block (x : string) (ds : list Timestamp) (l : list string) :
  Forall (String_as_OT.lt x) l ->
  fold_right (fun k acc => insert_level (fst k) acc) l (map (pair x) ds) =
  match ds with [] => l | _ :: _ => x :: l end.
Proof.
  intros H. induction ds as [|d r IH]; [reflexivity|].
  simpl. rewrite IH. destruct r.
  - now apply insert_level_below.
  - apply insert_level_head.
Qed.

(** The first level of a product index is the list of entities it was
    built from. *)
Lemma levels0_from_product (l : list string) (d : Timestamp) (ds : list Timestamp) :
  StronglySorted String_as_OT.lt l ->
  levels0 (from_product l (d :: ds)) = l.
Proof.
  unfold from_product. intros Hs.
  induction Hs as [|x r Hr IH Hall].
  - reflexivity.
  - change (list_prod (x :: r) (d :: ds))
      with (map (pair x) (d :: ds) ++ list_prod r (d :: ds)).
    rewrite levels0_app, IH. now rewrite levels0_block.
Qed.

Lemma list_prod_nil_r {A B : Type} (l : list A) : list_prod l (@nil B) = [].
Proof. induction l; simpl; auto. Qed.

Lemma from_product_levels0 (l : list string) (ds : list Timestamp) :
  StronglySorted String_as_OT.lt l ->
  from_product (levels0 (from_product l ds)) ds = from_product l ds.
Proof.
  intros Hs. destruct ds as [|d ds].
  - unfold from_product. now rewrite !list_prod_nil_r.
  - now rewrite levels0_from_product.
Qed.

(** Reading a frame at its own labels returns its columns. *)
Lemma first_value_own_index (idx : list Key) (col : list Cell) :
  NoDup idx -> List.length col = List.length idx ->
  map (first_value idx col) idx = col.
Proof.
  intros Hnd. revert col; induction Hnd as [|k r Hk Hnd IH]; intros col Hl.
  - destruct col; [reflexivity | discriminate].
  - destruct col as [|c cr]; [discriminate|].
    simpl. rewrite key_eqb_refl. f_equal.
    transitivity (map (first_value r cr) r).
    + apply map_ext_in. intros k' Hk'.
      destruct (key_eqb k' k) eqn:He; [|reflexivity].
      apply key_eqb_eq in He. subst. contradiction.
    + apply IH. simpl in Hl. lia.
Qed.

(** X13: [fill_gap] on the frame it has just returned fills again: the
    two runs together fill as one run with twice the cap, on the same
    index. A result frame that stays from one cycle to the next is
    filled further at each cycle. *)
Theorem fill_gap_again_doubles_cap
    (s : Factor) (df : DataFrame) (a b : Timestamp) (m : FillMethod) :
  keep_all_timestamp s = true ->
  result_df s = Some df ->
  start_timestamp s = Some a ->
  end_timestamp s = Some b ->
  clean_fill_method (fill_method s) = Some m ->
  1 <= effective_number s ->
  exists df1 df2,
    fill_gap s = (Ok tt, set_result_df s (Some df1)) /\
    fill_gap (set_result_df s (Some df1)) = (Ok tt, set_result_df s (Some df2)) /\
    index df2 = index df1 /\
    columns df2 =
      map (fun c => (fst c,
             fill_column m (Z.to_nat (effective_number s) + Z.to_nat (effective_number s))
               (map (first_value (index df) (snd c)) (index df1))))
          (columns df).
Proof.
  intros Hk Hr Ha Hb Hm Hn.
  pose proof (fill_gap_runs s df a b m Hk Hr Ha Hb Hm Hn) as H1.
  set (P := from_product (levels0 (index df)) (date_range a b)) in *.
  set (df1 := {| index := P;
                 columns := map (fun c => (fst c,
                     fill_column m (Z.to_nat (effective_number s))
                       (map (first_value (index df) (snd c)) P))) (columns df) |}) in *.
  assert (HP : from_product (levels0 P) (date_range a b) = P)
    by (apply from_product_levels0, levels0_sorted).
  assert (HN : NoDup P).
  { apply NoDup_list_prod; [|apply date_range_NoDup].
    apply sorted_NoDup, levels0_sorted. }
  pose proof (fill_gap_runs (set_result_df s (Some df1)) df1 a b m
                Hk eq_refl Ha Hb Hm Hn) as H2.
  simpl index in H2. rewrite HP in H2.
  eexists df1, _. split; [exact H1|]. split; [exact H2|].
  simpl. split; [reflexivity|].
  rewrite map_map. apply map_ext. intros c. simpl. f_equal.
  rewrite first_value_own_index; auto.
  - apply fill_column_again.
  - now rewrite fill_column_length, length_map.
Qed.

Lemma fill_gap_again_doubles_cap_witness :
  exists df1 df2,
    fill_gap (gap_factor (Some gap_series)) =
      (Ok tt, set_result_df (gap_factor (Some gap_series)) (Some df1)) /\
    fill_gap (set_result_df (gap_factor (Some gap_series)) (Some df1)) =
      (Ok tt, set_result_df (gap_factor (Some gap_series)) (Some df2)) /\
    columns df1 =
      [("value", [Some (Num 1); Some (Num 1); Some (Num 1); None; Some (Num 5)])] /\
    columns df2 =
      [("value", [Some (Num 1); Some (Num 1); Some (Num 1); Some (Num 1); Some (Num 5)])].
Proof.
  destruct (fill_gap_again_doubles_cap (gap_factor (Some gap_series)) gap_series
              (day 0) (day 4) pad eq_refl eq_refl eq_refl eq_refl eq_refl)
    as (df1 & df2 & H1 & H2 & Hi & Hc).
  - vm_compute. discriminate.
  - exists df1, df2. split; [exact H1|]. split; [exact H2|].
    assert (Hd : df1 = gap_filled).
    { assert (E : result_df (snd (fill_gap (gap_factor (Some gap_series)))) =
                  Some df1) by (now rewrite H1).
      vm_compute in E. now injection E as <-. }
    split; [rewrite Hd; reflexivity|].
    rewrite Hc, Hd. vm_compute. reflexivity.
Defined.

(** ** The registries *)

Lemma dict_get_set {V : Type} (n m : string) (v : V) (d : Registry V) :
  dict_get n (dict_set m v d) = if String.eqb n m then Some v else dict_get n d.
Proof.
  induction d as [|[k w] r IH]; simpl.
  - reflexivity.
  - destruct (String.eqb_spec m k) as [->|Hmk]; simpl.
    + destruct (String.eqb n k); reflexivity.
    + rewrite IH. destruct (String.eqb_spec n k) as [->|Hnk].
      * destruct (String.eqb_spec k m); [congruence | reflexivity].
      * reflexivity.
Qed.

Lemma last_registered_cons {V : Type} (n : string) (c : PyClass) (v : V)
    (calls : list (PyClass * V)) :
  last_registered n ((c, v) :: calls) =
  match last_registered n calls with
  | Some w => Some w
  | None => if String.eqb (class_name c) n then Some v else None
  end.
Proof.
  unfold last_registered. simpl rev.
  induction (rev calls) as [|[c' v'] r IH]; simpl.
  - destruct (String.eqb (class_name c) n); reflexivity.
  - destruct (String.eqb (class_name c') n); [reflexivity | exact IH].
Qed.

(** X14: after any sequence of registrations a registry never holds one
    of the four base names that it did not hold before; under any other
    name it holds the value of the last registration of a class of that
    name, or what it held before when there was none. *)
Theorem registry_after_registrations {V : Type}
    (calls : list (PyClass * V)) (reg : Registry V) (n : string) :
  dict_get n (register_all calls reg) =
  if is_base_name n then dict_get n reg
  else match last_registered n calls with
       | Some v => Some v
       | None => dict_get n reg
       end.
Proof.
  revert reg; induction calls as [|[c v] r IH]; intros reg.
  - simpl. now destruct (is_base_name n).
  - change (register_all ((c, v) :: r) reg)
      with (register_all r (register c v reg)).
    rewrite IH, last_registered_cons. unfold register.
    destruct (is_base_name n) eqn:Hn.
    + destruct (is_base_name (class_name c)) eqn:Hc; simpl; [reflexivity|].
      rewrite dict_get_set.
      destruct (String.eqb_spec n (class_name c)) as [->|]; [congruence | reflexivity].
    + destruct (last_registered n r); [reflexivity|].
      destruct (is_base_name (class_name c)) eqn:Hc; simpl.
      * destruct (String.eqb_spec (class_name c) n) as [<-|]; [congruence | reflexivity].
      * rewrite dict_get_set, String.eqb_sym.
        destruct (String.eqb (class_name c) n); reflexivity.
Qed.

(** ** A factor without a scorer has no result frame *)

Lemma do_compute_result_df_unscored (s : Factor) :
  cls s <> CScoreFactor \/ scorer s = None ->
  result_df (snd (do_compute s)) = result_df s.
Proof.
  intros H. destruct (Factor_do_compute_frame s) as (_ & _ & Hr).
  pose proof (Factor_do_compute_inputs s) as (_ & _ & _ & _ & Hs).
  unfold do_compute. destruct (cls s) eqn:Hc; auto.
  destruct H as [H|H]; [contradiction|].
  unfold ScoreFactor_do_compute, bind.
  destruct (Factor_do_compute s) as [[[]|e] s1]; simpl in *; auto.
  rewrite Hs, H. now destruct (df_is_not_null (pipe_df s1)).
Qed.

(** X15: nothing in the pipeline of a factor without a scorer writes the
    result frame: if it is [None] before a cycle it is [None] after it,
    and with all timestamps kept the cycle never returns, whatever the
    raw frame, the transformers and the accumulator are. *)
Theorem compute_without_scorer_has_no_result
    (env : Frame -> option exn) (s : Factor) :
  cls s <> CScoreFactor \/ scorer s = None ->
  result_df s = None ->
  result_df (snd (compute env s)) = None /\
  (keep_all_timestamp s = true -> fst (compute env s) <> Ok tt).
Proof.
  intros Hsc Hr. unfold compute, bind, pre_compute.
  set (s0 := set_pipe_df s (data_df s)).
  assert (Hsc0 : cls s0 <> CScoreFactor \/ scorer s0 = None) by exact Hsc.
  pose proof (do_compute_result_df_unscored s0 Hsc0) as Hr1.
  destruct (do_compute_frame s0) as (He & _).
  apply (f_equal keep_all_timestamp) in He. simpl in He.
  destruct (do_compute s0) as [[[]|e] s1]; simpl in *.
  - assert (Hr1' : result_df s1 = None) by congruence.
    unfold after_compute, bind, fill_gap. rewrite Hr1', He.
    destruct (keep_all_timestamp s).
    + destruct (start_timestamp s1), (end_timestamp s1); simpl;
        (split; [exact Hr1' | discriminate]).
    + destruct (need_persist s1); simpl.
      * unfold persist_result. destruct (env (factor_df s1)); simpl;
          (split; [exact Hr1' | discriminate]).
      * split; [exact Hr1' | discriminate].
  - split; [congruence | discriminate].
Qed.

Lemma compute_without_scorer_has_no_result_witness :
  result_df (snd (compute no_failure
     (mkFactor CFilterFactor (Some (day 0)) (Some (day 4)) 250 true "ffill" 10
        [add_one] None true false None [] (Some raw_df) None None None []))) = None /\
  fst (compute no_failure
     (mkFactor CFilterFactor (Some (day 0)) (Some (day 4)) 250 true "ffill" 10
        [add_one] None true false None [] (Some raw_df) None None None [])) <> Ok tt.
Proof.
  destruct (compute_without_scorer_has_no_result no_failure
     (mkFactor CFilterFactor (Some (day 0)) (Some (day 4)) 250 true "ffill" 10
        [add_one] None true false None [] (Some raw_df) None None None [])
     (or_intror eq_refl) eq_refl) as (H1 & H2).
  split; [exact H1 | exact (H2 eq_refl)].
Defined.

(** ** Backward fill *)

Lemma pad_from_app_valid (n : nat) (xs ys : list Cell) (w : Scalar)
    (last : Cell) (c : nat) :
  pad_from n last c (xs ++ Some w :: ys) =
  pad_from n last c xs ++ Some w :: pad_from n (Some w) 0 ys.
Proof.
  revert last c; induction xs as [|[v|] r IH]; intros last c; simpl;
    try rewrite IH; reflexivity.
Qed.

Lemma rev_repeat {A : Type} (x : A) (n : nat) : rev (repeat x n) = repeat x n.
Proof.
  induction n as [|n IH]; [reflexivity|].
  simpl. rewrite IH. change [x] with (repeat x 1).
  rewrite <- repeat_app. now rewrite Nat.add_1_r.
Qed.

(** X16: backward fill over a gap of [k] missing cells before a valid
    one fills the [min k n] cells next to it and leaves the cells
    farther back missing. *)
Theorem backfill_gap_capped (n : nat) (v w : Scalar) (k : nat) (rest : list Cell) :
  fill_column backfill n (Some v :: repeat None k ++ Some w :: rest) =
  Some v :: repeat None (k - n) ++ repeat (Some w) (Nat.min k n) ++
  fill_column backfill n (Some w :: rest).
Proof.
  assert (E1 : pad_from n (Some w) 0 (repeat None k ++ [Some v]) =
               repeat (Some w) (Nat.min k n) ++ repeat None (k - n) ++ [Some v])
    by (rewrite pad_from_gap, Nat.sub_0_r; reflexivity).
  assert (E2 : forall xs, pad_from n None 0 (xs ++ [Some w]) =
                          pad_from n None 0 xs ++ [Some w])
    by (intros xs; rewrite pad_from_app_valid; reflexivity).
  assert (E3 : rev (Some v :: repeat None k ++ Some w :: rest) =
               (rev rest ++ [Some w]) ++ repeat None k ++ [Some v]).
  { simpl. rewrite rev_app_distr. simpl. rewrite rev_repeat.
    now rewrite <- !app_assoc. }
  unfold fill_column. unfold Cell in *. rewrite E3.
  simpl rev. rewrite E2.
  rewrite <- app_assoc. simpl app.
  rewrite pad_from_app_valid. unfold Cell in *. rewrite E1.
  rewrite !rev_app_distr. simpl rev.
  rewrite !rev_app_distr, !rev_repeat. simpl.
  now rewrite <- !app_assoc.
Qed.

(** ** The fill across entities *)

Lemma list_prod_app {A B : Type} (l1 l2 : list A) (d : list B) :
  list_prod (l1 ++ l2) d = list_prod l1 d ++ list_prod l2 d.
Proof.
  induction l1 as [|x r IH]; simpl; [reflexivity|].
  now rewrite IH, app_assoc.
Qed.

Lemma date_range_first (a b : Timestamp) :
  a <= b -> exists d1, date_range a b = a :: d1.
Proof.
  intros H. unfold date_range.
  destruct (Z.leb_spec a b) as [_|Hlt]; [|lia].
  simpl. rewrite Z.add_0_r. eauto.
Qed.

Lemma date_range_last (a b : Timestamp) :
  a <= b -> exists d0, date_range a b = d0 ++ [last_day a b].
Proof.
  intros H. unfold date_range, last_day.
  destruct (Z.leb_spec a b) as [_|Hlt]; [|lia].
  rewrite seq_S, map_app. simpl.
  rewrite Z2Nat.id by (apply Z.div_pos; [lia | reflexivity]).
  eauto.
Qed.

Lemma first_value_app_skip (pre rest : list Key) (u w : list Cell) (k : Key) :
  List.length u = List.length pre -> ~ In k pre ->
  first_value (pre ++ rest) (u ++ w) k = first_value rest w k.
Proof.
  revert u; induction pre as [|k0 r IH]; intros u Hl Hk.
  - destruct u; [reflexivity | discriminate].
  - destruct u as [|c cr]; [discriminate|]. simpl.
    destruct (key_eqb k k0) eqn:He.
    + apply key_eqb_eq in He. subst. exfalso. apply Hk. now left.
    + apply IH; [simpl in Hl; lia | intros Hin; apply Hk; now right].
Qed.

(** X17: the forward fill runs down the whole column, not entity by
    entity: when an entity has a value on the last day of the range and
    the next entity of the index has none on the first day, that first
    day takes the value of the other entity. *)
Theorem fill_gap_crosses_entities
    (s : Factor) (df : DataFrame) (a b : Timestamp)
    (l1 l2 : list string) (e e' : string)
    (c : string * list Cell) (v : Scalar) :
  keep_all_timestamp s = true ->
  result_df s = Some df ->
  start_timestamp s = Some a ->
  end_timestamp s = Some b ->
  a <= b ->
  clean_fill_method (fill_method s) = Some pad ->
  1 <= effective_number s ->
  levels0 (index df) = l1 ++ e :: e' :: l2 ->
  In c (columns df) ->
  first_value (index df) (snd c) (e, last_day a b) = Some v ->
  first_value (index df) (snd c) (e', a) = None ->
  exists df' c',
    fill_gap s = (Ok tt, set_result_df s (Some df')) /\
    In c' (columns df') /\
    fst c' = fst c /\
    first_value (index df') (snd c') (e', a) = Some v.
Proof.
  intros Hk Hr Ha Hb Hab Hm Hn Hl Hc Hv Hnone.
  pose proof (fill_gap_runs s df a b pad Hk Hr Ha Hb Hm Hn) as Hrun.
  set (P := from_product (levels0 (index df)) (date_range a b)) in *.
  set (g := first_value (index df) (snd c)).
  eexists. exists (fst c, fill_column pad (Z.to_nat (effective_number s)) (map g P)).
  split; [exact Hrun|]. simpl. split; [|split; [reflexivity|]].
  - apply in_map_iff. exists c. split; [reflexivity | exact Hc].
  - destruct (date_range_first a b Hab) as (d1 & Hd1).
    destruct (date_range_last a b Hab) as (d0 & Hd0).
    assert (Hnd : NoDup (l1 ++ e :: e' :: l2)).
    { rewrite <- Hl. apply sorted_NoDup, levels0_sorted. }
    assert (Hee : e <> e').
    { apply NoDup_remove_2 in Hnd. intros ->. apply Hnd.
      apply in_or_app. right. now left. }
    assert (He'l1 : ~ In e' l1).
    { change (l1 ++ e :: e' :: l2) with (l1 ++ [e] ++ e' :: l2) in Hnd.
      rewrite app_assoc in Hnd. apply NoDup_remove_2 in Hnd.
      intros Hin. apply Hnd. apply in_or_app. left. apply in_or_app. now left. }
    set (pre := list_prod l1 (date_range a b) ++ map (fun y : Timestamp => (e, y)) d0).
    set (post := map (fun y : Timestamp => (e', y)) d1 ++ list_prod l2 (date_range a b)).
    assert (HP : P = pre ++ (e, last_day a b) :: (e', a) :: post).
    { unfold P, from_product, pre, post. rewrite Hl, list_prod_app. simpl.
      assert (E1 : map (fun y : Timestamp => (e, y)) (date_range a b) =
                   map (fun y : Timestamp => (e, y)) d0 ++ [(e, last_day a b)])
        by (rewrite Hd0, map_app; reflexivity).
      assert (E2 : map (fun y : Timestamp => (e', y)) (date_range a b) = (e', a) :: map (fun y : Timestamp => (e', y)) d1)
        by (rewrite Hd1; reflexivity).
      rewrite E1, E2. rewrite <- !app_assoc. reflexivity. }
    assert (Hpre : ~ In (e', a) pre).
    { unfold pre. intros Hin. apply in_app_or in Hin. destruct Hin as [Hin|Hin].
      - apply in_prod_iff in Hin. tauto.
      - apply in_map_iff in Hin. destruct Hin as (x & Hx & _).
        injection Hx as Hx _. contradiction. }
    rewrite HP. rewrite !map_app. simpl map. fold g in Hv, Hnone.
    rewrite Hv, Hnone.
    rewrite pad_from_app_valid. simpl pad_from.
    destruct (Nat.ltb_spec 0 (Z.to_nat (effective_number s))) as [_|H0]; [|lia].
    rewrite first_value_app_skip;
      [| now rewrite pad_from_length, length_map | exact Hpre].
    simpl.
    assert (Hne : key_eqb (e', a) (e, last_day a b) = false).
    { destruct (key_eqb (e', a) (e, last_day a b)) eqn:E; [|reflexivity].
      apply key_eqb_eq in E. injection E as E _. congruence. }
    rewrite Hne, key_eqb_refl. reflexivity.
Qed.

Lemma fill_gap_crosses_entities_witness :
  let df := {| index := [("e1", day 4); ("e2", day 2)];
               columns := [("value", [Some (Num 9); Some (Num 3)])] |} in
  exists df' c',
    fill_gap (gap_factor (Some df)) =
      (Ok tt, set_result_df (gap_factor (Some df)) (Some df')) /\
    In c' (columns df') /\
    fst c' = "value" /\
    first_value (index df') (snd c') ("e2", day 0) = Some (Num 9).
Proof.
  intros df.
  apply (fill_gap_crosses_entities (gap_factor (Some df)) df (day 0) (day 4)
           [] [] "e1" "e2" ("value", [Some (Num 9); Some (Num 3)]) (Num 9));
    try reflexivity.
  - vm_compute. discriminate.
  - vm_compute. discriminate.
  - left. reflexivity.
Defined.

(** ** Accumulation from one cycle to the next *)

(** X18: the accumulator of a cycle receives the factor frame the
    previous cycle left: over two cycles on the same raw frame the
    factor frame is the accumulator applied to the transformed frame and
    to what it returned the first time, also when the sink fails. *)
Theorem compute_twice_accumulates
    (env : Frame -> option exn) (s : Factor) (d f1 f2 : Frame) (acc : Accumulator) :
  cls s <> CScoreFactor ->
  keep_all_timestamp s = false ->
  transformed s = Ok d ->
  df_is_not_null d = true ->
  accumulator s = Some acc ->
  acc d (factor_df s) = Ok f1 ->
  acc d f1 = Ok f2 ->
  factor_df (snd (compute env s)) = f1 /\
  factor_df (snd (compute env (snd (compute env s)))) = f2.
Proof.
  intros Hc Hk Ht Hd Ha H1 H2.
  assert (Hn1 : next_factor s d = Ok f1)
    by (unfold next_factor; now rewrite Hd, Ha).
  pose proof (compute_plain_state env s d f1 Hc Hk Ht Hn1) as E1.
  set (s1 := snd (compute env s)) in *.
  assert (Hs1 : cls s1 = cls s /\ keep_all_timestamp s1 = keep_all_timestamp s /\
                transformed s1 = transformed s /\ accumulator s1 = accumulator s /\
                factor_df s1 = f1).
  { rewrite E1. destruct (need_persist s); repeat split. }
  destruct Hs1 as (Hc1 & Hk1 & Ht1 & Ha1 & Hf1).
  split; [exact Hf1|].
  assert (Hn2 : next_factor s1 d = Ok f2)
    by (unfold next_factor; now rewrite Hd, Ha1, Ha, Hf1).
  rewrite (compute_plain_state env s1 d f2); try congruence.
  destruct (need_persist s1); reflexivity.
Qed.

Lemma compute_twice_accumulates_witness :
  let acc : Accumulator :=
    fun pipe old => match old with Some _ => add_one old | None => Ok pipe end in
  let s := example_factor CFactor [add_one] (Some acc) (Some raw_df) None None in
  let d := match add_one (Some raw_df) with Ok x => x | Raise _ => None end in
  let f2 := match add_one d with Ok x => x | Raise _ => None end in
  factor_df (snd (compute sink_down s)) = d /\
  factor_df (snd (compute sink_down (snd (compute sink_down s)))) = f2 /\
  f2 <> d.
Proof.
  intros acc s d f2.
  destruct (compute_twice_accumulates sink_down s d d f2 acc) as (H1 & H2);
    try reflexivity; try discriminate.
  split; [exact H1|]. split; [exact H2|]. vm_compute. discriminate.
Defined.
